(** * nativedb: the MongoDB model class ([src/nativedb/mongodb.py])

    A shallow embedding of [MongoDbModel]: the per-class configuration
    (database and collection binding, lazy unique-index creation), the
    weak identity cache [_WEAKREFS], and the CRUD operations built on them.

    Python objects have identity and are mutated in place, exceptions do not
    roll back what was mutated before them, and the weak cache depends on
    which objects are still alive.  The embedding therefore threads one
    explicit state through every call: the class attributes, a heap of
    instance dictionaries indexed by address, and the contents of the
    MongoDB server.  A call returns its outcome (a value or the exception
    raised) together with the state it leaves behind. *)

From Stdlib Require Import ZArith.
From stdpp Require Import gmap strings list fin_maps.

Open Scope string_scope.
Open Scope list_scope.

(** ** Python values stored in fields *)

Inductive value :=
  | VNone
  | VBool (b : bool)
  | VInt (z : Z)
  | VStr (s : string)
  | VOid (n : N).

#[global] Instance value_eq_dec : EqDecision value.
Proof. solve_decision. Defined.

Definition value_enc (v : value) : unit + bool + Z + string + N :=
  match v with
  | VNone => inl (inl (inl (inl tt)))
  | VBool b => inl (inl (inl (inr b)))
  | VInt z => inl (inl (inr z))
  | VStr s => inl (inr s)
  | VOid n => inr n
  end.

Definition value_dec (x : unit + bool + Z + string + N) : value :=
  match x with
  | inl (inl (inl (inl _))) => VNone
  | inl (inl (inl (inr b))) => VBool b
  | inl (inl (inr z)) => VInt z
  | inl (inr s) => VStr s
  | inr n => VOid n
  end.

#[global] Instance value_countable : Countable value.
Proof.
  refine (inj_countable' value_enc value_dec _).
  intros []; reflexivity.
Defined.

(** A Python [dict] with string keys: a document, a keyword-argument map or
    an instance [__dict__]. *)
Abbreviation dict := (gmap string value).

(** [d.get(k)]: the value under [k], [None] when the key is absent. *)
Definition dict_get (d : dict) (k : string) : value := default VNone (d !! k).

(** [d.update(e)]: the entries of [e] override those of [d]. *)
Definition dict_update (d e : dict) : dict := e ∪ d.

(** ** Exceptions *)

Inductive exn :=
  | NoDatabase
  | NoCollection
  | MultipleKeys
  | UniqueConflict
  | DuplicateKeyError   (* pymongo.errors.DuplicateKeyError *)
  | KeyError
  | AttributeError
  | DeadObject.         (* a method called on a collected address: no Python
                           caller can do so, its reference keeps [self] alive *)

#[global] Instance exn_eq_dec : EqDecision exn.
Proof. solve_decision. Defined.

Inductive result (A : Type) :=
  | Ok (a : A)
  | Err (e : exn).
Arguments Ok {A} a.
Arguments Err {A} e.

(** ** The datastore transport (pymongo), as far as the class uses it *)

Module Mongo.

(** A collection: its documents in store order, and the fields that carry a
    unique index.  [_id] is always unique. *)
Record collection := Collection {
  docs : list dict;
  indexes : list string
}.

Definition empty : collection := Collection [] [].

(** A database handle is the database's name; a collection handle is the
    pair of the database's and the collection's names.  Generated [_id]s
    come from a counter. *)
Record server := Server {
  colls : gmap (string * string) collection;
  next_oid : N
}.

(** [database.get_collection(name)] never fails: a collection exists once
    it is named. *)
Definition get_collection (d : string) (name : string) : string * string :=
  (d, name).

Definition contents (sv : server) (h : string * string) : collection :=
  default empty (colls sv !! h).

Definition set_contents (sv : server) (h : string * string) (c : collection)
  : server :=
  Server (<[h := c]> (colls sv)) (next_oid sv).

(** An equality filter matches a document when every filter field has the
    filter's value in the document; a missing field reads as [None]. *)
Definition matches (flt d : dict) : bool :=
  bool_decide (map_Forall (λ k v, dict_get d k = v) flt).

Definition find (sv : server) (h : string * string) (flt : dict) : list dict :=
  filter (λ d, matches flt d = true) (docs (contents sv h)).

Definition find_one (sv : server) (h : string * string) (flt : dict)
  : option dict :=
  head (find sv h flt).

(** [d] clashes with [e] on a unique field. *)
Definition clashes (keys : list string) (d e : dict) : bool :=
  existsb (λ k, bool_decide (dict_get d k = dict_get e k)) keys.

Definition unique_keys (c : collection) : list string := "_id" :: indexes c.

Definition violates (c : collection) (d : dict) (others : list dict) : bool :=
  existsb (clashes (unique_keys c) d) others.

(** [insert_one(doc)]: a document without [_id] receives a generated one;
    the call returns the [_id] of the inserted document. *)
Definition insert_doc (d : dict) (n : N) : dict :=
  match d !! "_id" with
  | Some _ => d
  | None => <["_id" := VOid n]> d
  end.

Definition insert_one (sv : server) (h : string * string) (d : dict)
  : result value * server :=
  let c := contents sv h in
  let d' := insert_doc d (next_oid sv) in
  if violates c d' (docs c) then (Err DuplicateKeyError, sv)
  else (Ok (dict_get d' "_id"),
        Server (<[h := Collection (docs c ++ [d']) (indexes c)]> (colls sv))
               (N.succ (next_oid sv))).

(** The first document matching [flt], with what precedes and follows it. *)
Fixpoint split_match (flt : dict) (l : list dict)
  : option (list dict * dict * list dict) :=
  match l with
  | [] => None
  | d :: l' =>
      if matches flt d then Some ([], d, l')
      else match split_match flt l' with
           | Some (pre, x, post) => Some (d :: pre, x, post)
           | None => None
           end
  end.

(** [update_one(flt, {'$set': upd})]: the first match gets the fields of
    [upd]; nothing happens without a match. *)
Definition update_one (sv : server) (h : string * string) (flt upd : dict)
  : result unit * server :=
  let c := contents sv h in
  match split_match flt (docs c) with
  | None => (Ok tt, sv)
  | Some (pre, d, post) =>
      let d' := dict_update d upd in
      if violates c d' (pre ++ post) then (Err DuplicateKeyError, sv)
      else (Ok tt, set_contents sv h (Collection (pre ++ d' :: post) (indexes c)))
  end.

Definition delete_one (sv : server) (h : string * string) (flt : dict) : server :=
  let c := contents sv h in
  match split_match flt (docs c) with
  | None => sv
  | Some (pre, _, post) => set_contents sv h (Collection (pre ++ post) (indexes c))
  end.

Definition delete_many (sv : server) (h : string * string) (flt : dict) : server :=
  let c := contents sv h in
  set_contents sv h
    (Collection (filter (λ d, matches flt d = false) (docs c)) (indexes c)).

(** [create_index(k, unique=True)]; creating an existing index again
    changes nothing. *)
Definition create_index (sv : server) (h : string * string) (k : string) : server :=
  let c := contents sv h in
  if bool_decide (k ∈ indexes c) then sv
  else set_contents sv h (Collection (docs c) (indexes c ++ [k])).

(** What every store call guarantees about the indexes: none is dropped. *)
Definition evolves (sv sv' : server) : Prop :=
  ∀ h k, k ∈ indexes (contents sv h) → k ∈ indexes (contents sv' h).

End Mongo.

(** ** The model class *)

(** What a field's annotation carries: [Key[T]] and [Unique[T]] have
    [__origin__] [Key] and [Unique]; any other annotation is [Plain]. *)
Inductive marker := Plain | Unique | Key.

#[global] Instance marker_eq_dec : EqDecision marker.
Proof. solve_decision. Defined.

Record annotation := Annotation {
  origin : marker;
  type_name : string
}.

(** What a class statement fixes: the class name, the annotated fields in
    declaration order (the keys of [__annotations__], hence distinct), the
    class [__dict__] with the declared defaults, and the two directions of
    [_SERIALIZER]. *)
Record model := Model {
  __name__ : string;
  __annotations__ : list (string * annotation);
  class_dict : dict;
  serialize : value → value;
  deserialize : annotation → value → value
}.

Inductive client := MongoClient.

(** The class attributes set in [__init_subclass__] and mutated later.
    [_WEAKREFS] maps a key value to the address its weak reference was
    taken of. *)
Record class_attrs := ClassAttrs {
  _CLIENT : option client;
  _DATABASE : option string;
  _COLLECTION : option (string * string);
  _COLLECTION_INITIALIZED : bool;
  _WEAKREFS : gmap value nat;
  _KEY_FIELD : string
}.

(** The attributes a subclass sees on [MongoDbModel] before its own
    [__init_subclass__] ran; only [_KEY_FIELD] is read there. *)
Definition MongoDbModel_attrs : class_attrs :=
  ClassAttrs None None None false ∅ "_id".

(** The program state: class attributes, the live instances ([heap] maps
    an address to the instance's [__dict__]; an address not in it has been
    collected), the next address to allocate, and the server. *)
Record state := State {
  cls : class_attrs;
  heap : gmap nat dict;
  next_addr : nat;
  server : Mongo.server
}.

Definition set_cls (f : class_attrs → class_attrs) (s : state) : state :=
  State (f (cls s)) (heap s) (next_addr s) (server s).

Definition set_heap (f : gmap nat dict → gmap nat dict) (s : state) : state :=
  State (cls s) (f (heap s)) (next_addr s) (server s).

Definition set_server (f : Mongo.server → Mongo.server) (s : state) : state :=
  State (cls s) (heap s) (next_addr s) (f (server s)).

Definition with_DATABASE (d : option string) (c : class_attrs) : class_attrs :=
  ClassAttrs (_CLIENT c) d (_COLLECTION c) (_COLLECTION_INITIALIZED c)
    (_WEAKREFS c) (_KEY_FIELD c).

Definition with_COLLECTION (h : option (string * string)) (c : class_attrs)
  : class_attrs :=
  ClassAttrs (_CLIENT c) (_DATABASE c) h (_COLLECTION_INITIALIZED c)
    (_WEAKREFS c) (_KEY_FIELD c).

Definition with_COLLECTION_INITIALIZED (b : bool) (c : class_attrs) : class_attrs :=
  ClassAttrs (_CLIENT c) (_DATABASE c) (_COLLECTION c) b (_WEAKREFS c) (_KEY_FIELD c).

Definition with_WEAKREFS (f : gmap value nat → gmap value nat) (c : class_attrs)
  : class_attrs :=
  ClassAttrs (_CLIENT c) (_DATABASE c) (_COLLECTION c) (_COLLECTION_INITIALIZED c)
    (f (_WEAKREFS c)) (_KEY_FIELD c).

Definition with_KEY_FIELD (k : string) (c : class_attrs) : class_attrs :=
  ClassAttrs (_CLIENT c) (_DATABASE c) (_COLLECTION c) (_COLLECTION_INITIALIZED c)
    (_WEAKREFS c) k.

(** ** Calls: state and exceptions *)

Definition py (A : Type) : Type := state → result A * state.

#[global] Instance py_ret : MRet py := λ A a s, (Ok a, s).

#[global] Instance py_bind : MBind py := λ A B f m s,
  match m s with
  | (Ok a, s') => f a s'
  | (Err e, s') => (Err e, s')
  end.

Definition raise {A} (e : exn) : py A := λ s, (Err e, s).

Definition gets {A} (f : state → A) : py A := λ s, (Ok (f s), s).

Definition modify (f : state → state) : py unit := λ s, (Ok tt, f s).

(** [try: m  except pymongo.errors.DuplicateKeyError as e: raise
    UniqueConflict from e]: the store's duplicate-key error becomes
    [UniqueConflict], every other outcome passes. *)
Definition translated {A} (r : result A) : result A :=
  match r with
  | Err DuplicateKeyError => Err UniqueConflict
  | _ => r
  end.

Definition translate_duplicate {A} (m : py A) : py A := λ s,
  let '(r, s') := m s in (translated r, s').

(** The outcome of an evaluation that does not touch the state. *)
Definition lift {A} (r : result A) : py A := λ s, (r, s).

(** A store call that can raise. *)
Definition store_call {A} (f : Mongo.server → result A * Mongo.server) : py A := λ s,
  let '(r, sv) := f (server s) in (r, set_server (λ _, sv) s).

(** The argument of [set_database] and [set_collection]: a name, or a
    ready handle. *)
Inductive binding (H : Type) :=
  | ByName (n : string)
  | ByHandle (h : H).
Arguments ByName {H} n.
Arguments ByHandle {H} h.

(** ** The methods of [MongoDbModel] *)

Section Methods.

Context (M : model).

Definition field_names : list string := (__annotations__ M).*1.

(** [cls.__annotations__[k]] for a declared [k]. *)
Definition annotation_of (k : string) : option annotation :=
  snd <$> find (λ p, bool_decide (p.1 = k)) (__annotations__ M).

(** Modelled from the spec: [DbModel._get_field(k).unique_or_key], whose
    class is not among the sources.  A field is unique or key when its
    annotation carries the key or the unique marker. *)
Definition unique_or_key (a : annotation) : bool :=
  match origin a with
  | Plain => false
  | Unique | Key => true
  end.

(** Modelled from the spec: [DbModel._get_default(k)], whose class is not
    among the sources: the class-declared default, [None] without one, as
    [__init__] reads it with [self.__class__.__dict__.get(key)]. *)
Definition _get_default (k : string) : value := dict_get (class_dict M) k.

(** [hasattr(val, '__origin__') and val.__origin__ is Key]. *)
Definition is_key (a : annotation) : bool := bool_decide (origin a = Key).

(** *** Binding *)

Definition _get_client : py (option client) := gets (λ s, _CLIENT (cls s)).

Definition get_database : py (option string) := gets (λ s, _DATABASE (cls s)).

Definition set_database (database : binding string) : py unit :=
  match database with
  | ByHandle d => modify (set_cls (with_DATABASE (Some d)))
  | ByName n =>
      c ← _get_client;
      match c with
      | Some _ => modify (set_cls (with_DATABASE (Some n)))
      | None => raise NoDatabase
      end
  end.

Definition set_collection (collection : binding (string * string)) : py unit :=
  match collection with
  | ByHandle h => modify (set_cls (with_COLLECTION (Some h)))
  | ByName n =>
      d ← get_database;
      match d with
      | Some d => modify (set_cls (with_COLLECTION (Some (Mongo.get_collection d n))))
      | None => raise NoDatabase
      end
  end.

(** The fields [_init_collection] indexes, in declaration order. *)
Definition indexed_fields : list string :=
  (filter (λ p, unique_or_key p.2 = true) (__annotations__ M)).*1.

Definition _init_collection (collection : string * string) : py unit :=
  modify (set_server (λ sv,
    foldl (λ sv k, Mongo.create_index sv collection k) sv indexed_fields));;
  modify (set_cls (with_COLLECTION_INITIALIZED true)).

Definition get_collection : py (string * string) :=
  bound ← gets (λ s, _COLLECTION (cls s));
  database ← get_database;
  let collection :=
    match database with
    | Some d => Some (Mongo.get_collection d (__name__ M))
    | None => bound
    end in
  match collection with
  | None => raise NoCollection
  | Some h =>
      initialized ← gets (λ s, _COLLECTION_INITIALIZED (cls s));
      (if initialized : bool then mret tt else _init_collection h);;
      mret h
  end.

(** *** Class definition *)

(** The loop over [cls.__annotations__.items()] at the end of
    [__init_subclass__]; [cls._KEY_FIELD] reads the inherited attribute
    until the loop assigns the class's own. *)
Fixpoint scan_keys (annos : list (string * annotation)) : py unit :=
  match annos with
  | [] => mret tt
  | (anno, val) :: rest =>
      (if is_key val then
         kf ← gets (λ s, _KEY_FIELD (cls s));
         if bool_decide (kf ≠ "_id") then raise MultipleKeys
         else modify (set_cls (with_KEY_FIELD anno))
       else mret tt);;
      scan_keys rest
  end.

(** [if database:] on a keyword given as a name: the empty name is false. *)
Definition truthy (o : option string) : option string :=
  match o with
  | Some "" => None
  | _ => o
  end.

(** [__init_subclass__(cls, database=..., collection=...)], with the
    keywords given as names.  It runs on the attributes inherited from the
    parent class; [default_client] and [default_database] are
    [_DEFAULT_CLIENT] and [_DEFAULT_DATABASE] at that time. *)
Definition __init_subclass__ (default_client : option client)
    (default_database : option string) (database collection : option string)
  : py unit :=
  modify (set_cls (λ c,
    ClassAttrs default_client default_database None false ∅ (_KEY_FIELD c)));;
  match truthy database with
  | Some n => set_database (ByName n)
  | None => mret tt
  end;;
  match truthy collection with
  | Some n => set_collection (ByName n)
  | None => mret tt
  end;;
  scan_keys (__annotations__ M).

(** *** Instances and the identity cache *)

(** [self._id]: the instance [__dict__] first, then the class attribute;
    [MongoDbModel] itself only annotates [_id]. *)
Definition getattr_id (d : dict) : result value :=
  match d !! "_id" with
  | Some v => Ok v
  | None =>
      match class_dict M !! "_id" with
      | Some v => Ok v
      | None => Err AttributeError
      end
  end.

(** [{k: v for k, v in zip(cls.__annotations__, args)}] updated with the
    keywords. *)
Definition _get_all_args (args : list value) (kwargs : dict) : dict :=
  dict_update (list_to_map (zip field_names args)) kwargs.

(** The first loop of [__init__]: every declared field at its class
    default. *)
Definition initial_dict : dict :=
  list_to_map ((λ k, (k, dict_get (class_dict M) k)) <$> field_names).

(** The constructor, [cls] called on positional and keyword arguments.
    The new object gets the next address; when
    [self._id] raises, nothing refers to the object and the state is as
    before. *)
Definition __init__ (args : list value) (kwargs : dict) : py nat :=
  let values := dict_update (list_to_map (zip field_names args)) kwargs in
  let d := dict_update initial_dict values in
  id ← lift (getattr_id d);
  self ← gets next_addr;
  modify (λ s, State (with_WEAKREFS (<[id := self]>) (cls s))
                     (<[self := d]> (heap s)) (S self) (server s));;
  mret self.

Definition _get_store_vals (d : dict) : dict := serialize M <$> d.

Definition _get_retrieve_vals (d : dict) : dict :=
  map_imap (λ k v, Some match annotation_of k with
                        | Some a => deserialize M a v
                        | None => v
                        end) d.

(** Calling a weak reference: the object while it is alive. *)
Definition weakref_call (a : nat) : py (option nat) :=
  gets (λ s, match heap s !! a with Some _ => Some a | None => None end).

Definition construct (doc : dict) : py nat :=
  __init__ [] (<["___internal___" := VBool true]>
                 (dict_update doc (_get_retrieve_vals doc))).

Definition _get (doc : dict) : py nat :=
  match doc !! "_id" with
  | None => raise KeyError
  | Some bson_id =>
      refs ← gets (λ s, _WEAKREFS (cls s));
      match refs !! bson_id with
      | Some r =>
          obj ← weakref_call r;
          match obj with
          | Some a => mret a
          | None => construct doc
          end
      | None => construct doc
      end
  end.

(** *** The CRUD operations *)

Definition query (q : dict) : py (list nat) :=
  h ← get_collection;
  found ← gets (λ s, Mongo.find (server s) h q);
  mapM _get found.

Definition find (args : list value) (kwargs : dict) : py (list nat) :=
  let all_args := _get_all_args args kwargs in
  h ← get_collection;
  found ← gets (λ s, Mongo.find (server s) h (_get_store_vals all_args));
  mapM _get found.

(** [if doc := ...find_one(...)]: an empty document is false, like no
    document. *)
Definition find_one (args : list value) (kwargs : dict) : py (option nat) :=
  let all_args := _get_all_args args kwargs in
  h ← get_collection;
  found ← gets (λ s, Mongo.find_one (server s) h (_get_store_vals all_args));
  match found with
  | Some doc =>
      if bool_decide (doc = ∅) then mret None
      else a ← _get doc; mret (Some a)
  | None => mret None
  end.

Definition delete_all (args : list value) (kwargs : dict) : py unit :=
  let all_args := _get_all_args args kwargs in
  h ← get_collection;
  modify (set_server (λ sv, Mongo.delete_many sv h (_get_store_vals all_args))).

(** The field map [new] builds: a supplied value, else the default. *)
Definition new_doc (all_args : dict) : dict :=
  list_to_map ((λ k, (k, match all_args !! k with
                         | Some v => v
                         | None => _get_default k
                         end)) <$> field_names).

Definition new (args : list value) (kwargs : dict) : py nat :=
  let all_args := _get_all_args args kwargs in
  let doc := new_doc all_args in
  inserted_id ← translate_duplicate (
    h ← get_collection;
    store_call (λ sv, Mongo.insert_one sv h (_get_store_vals doc)));
  __init__ [] (<["___internal___" := VBool true]> (<["_id" := inserted_id]> doc)).

(** [cls.find_one(...) or cls(...)]; an instance is true. *)
Definition get_or_create (args : list value) (kwargs : dict) : py nat :=
  found ← find_one args kwargs;
  match found with
  | Some a => mret a
  | None => __init__ args kwargs
  end.

(** [self.__dict__] of a live instance. *)
Definition instance_dict (self : nat) : py dict := λ s,
  match heap s !! self with
  | Some d => (Ok d, s)
  | None => (Err DeadObject, s)
  end.

Definition declared_updates (kwargs : dict) : dict :=
  filter (λ p, p.1 ∈ field_names) kwargs.

Definition update (self : nat) (kwargs : dict) : py unit :=
  let updates := declared_updates kwargs in
  if bool_decide (updates = ∅) then mret tt
  else
    d ← instance_dict self;
    modify (set_heap (<[self := dict_update d updates]>));;
    translate_duplicate (
      h ← get_collection;
      id ← lift (getattr_id (dict_update d updates));
      store_call (λ sv, Mongo.update_one sv h {["_id" := id]}
                          (_get_store_vals updates))).

Definition delete (self : nat) : py unit :=
  d ← instance_dict self;
  h ← get_collection;
  id ← lift (getattr_id d);
  modify (set_server (λ sv, Mongo.delete_one sv h {["_id" := id]}));;
  refs ← gets (λ s, _WEAKREFS (cls s));
  match refs !! id with
  | Some _ => modify (set_cls (with_WEAKREFS (base.delete id)))
  | None => raise KeyError
  end.

(** *** The collector *)

(** The interpreter frees an object nothing refers to any more: its
    address leaves the heap, the weak references to it stay behind. *)
Definition collect (a : nat) : py unit := modify (set_heap (base.delete a)).

End Methods.

(** ** Vocabulary of the statements *)

Section Vocabulary.

Context (M : model).

(** The handle [get_collection] settles on, read off the class attributes. *)
Definition resolve (c : class_attrs) : option (string * string) :=
  match _DATABASE c with
  | Some d => Some (Mongo.get_collection d (__name__ M))
  | None => _COLLECTION c
  end.

(** The state [_init_collection] leaves. *)
Definition initialized_on (h : string * string) (s : state) : state :=
  set_cls (with_COLLECTION_INITIALIZED true)
    (set_server (λ sv, foldl (λ sv k, Mongo.create_index sv h k) sv
                         (indexed_fields M)) s).

(** Once the class counts as initialized, the collection it resolves to
    carries the unique indexes. *)
Definition indexes_ready (s : state) : Prop :=
  _COLLECTION_INITIALIZED (cls s) = true →
  ∀ h, resolve (cls s) = Some h →
  ∀ k, k ∈ indexed_fields M → k ∈ Mongo.indexes (Mongo.contents (server s) h).

(** Addresses are handed out in increasing order. *)
Definition heap_fresh (s : state) : Prop :=
  ∀ a, is_Some (heap s !! a) → a < next_addr s.

(** The cache holds the live instance [I] under the key [K]. *)
Definition cached (s : state) (K : value) (I : nat) : Prop :=
  _WEAKREFS (cls s) !! K = Some I ∧ is_Some (heap s !! I).


(** The calls a program makes on the class and its instances, the
    collector's steps among them. *)
Inductive op :=
  | Query (q : dict)
  | Find (args : list value) (kwargs : dict)
  | FindOne (args : list value) (kwargs : dict)
  | DeleteAll (args : list value) (kwargs : dict)
  | New (args : list value) (kwargs : dict)
  | GetOrCreate (args : list value) (kwargs : dict)
  | Construct (args : list value) (kwargs : dict)
  | Update (self : nat) (kwargs : dict)
  | Delete (self : nat)
  | SetDatabase (b : binding string)
  | SetCollection (b : binding (string * string))
  | Collect (a : nat).

(** The state a call leaves, whatever it returned or raised. *)
Definition run_op (o : op) (s : state) : state :=
  match o with
  | Query q => (query M q s).2
  | Find args kwargs => (find M args kwargs s).2
  | FindOne args kwargs => (find_one M args kwargs s).2
  | DeleteAll args kwargs => (delete_all M args kwargs s).2
  | New args kwargs => (new M args kwargs s).2
  | GetOrCreate args kwargs => (get_or_create M args kwargs s).2
  | Construct args kwargs => (__init__ M args kwargs s).2
  | Update self kwargs => (update M self kwargs s).2
  | Delete self => (delete M self s).2
  | SetDatabase b => (set_database b s).2
  | SetCollection b => (set_collection b s).2
  | Collect a => (collect a s).2
  end.

Definition run (ops : list op) (s : state) : state :=
  foldl (λ s o, run_op o s) s ops.



(** The two calls that set a binding. *)
Definition rebinds (o : op) : Prop :=
  match o with
  | SetDatabase _ | SetCollection _ => True
  | _ => False
  end.

(** The key-marked fields, in declaration order. *)
Definition key_fields (annos : list (string * annotation)) : list string :=
  (filter (λ p, is_key p.2 = true) annos).*1.

End Vocabulary.

(** ** What a call leaves alone *)

(** [frames R m]: whatever [m] returns or raises, the state it leaves is
    related by [R] to the state it started in. *)
Definition frames {A} (R : relation state) (m : py A) : Prop :=
  ∀ s, R s (m s).2.

(** Two ways to build the relation: a state predicate that survives, and
    an observation that stays the same. *)
Definition preserved (P : state → Prop) : relation state := λ s s', P s → P s'.

Definition unchanged {A} (f : state → A) : relation state := λ s s', f s' = f s.


(** ** Example classes and states *)

Definition plain_serializer : value → value := λ v, v.
Definition plain_deserializer : annotation → value → value := λ _ v, v.

(** [class User(MongoDbModel): name: Unique[str]; age: int = 0]. *)
Definition User : model :=
  Model "User"
    [("name", Annotation Unique "str"); ("age", Annotation Plain "int")]
    {["age" := VInt 0]} plain_serializer plain_deserializer.

(** [class Page(MongoDbModel): _id: Key[str]; slug: Key[str]]. *)
Definition Page : model :=
  Model "Page"
    [("_id", Annotation Key "str"); ("slug", Annotation Key "str")]
    ∅ plain_serializer plain_deserializer.


(** Nothing defined yet, an empty server. *)
Definition boot : state := State MongoDbModel_attrs ∅ 0 (Mongo.Server ∅ 0).

(** [User] defined with [mongodb_config(database='MyDB')] in force. *)
Definition User_defined : state :=
  (__init_subclass__ User (Some MongoClient) (Some "MyDB") None None boot).2.

(** The first [User.get_collection()]. *)
Definition User_first_use : state := (get_collection User User_defined).2.

(** [User.set_database('Other')] after that first use. *)
Definition User_rebound : state :=
  (set_database (ByName "Other") User_first_use).2.

(** [User.set_collection('people')] right after the class definition. *)
Definition User_in_people : state :=
  (set_collection (ByName "people") User_defined).2.

(** A class without a database, bound to a ready collection handle. *)
Definition User_by_handle : state :=
  (set_collection (ByHandle ("Archive", "people"))
     (__init_subclass__ User (Some MongoClient) None None None boot).2).2.

(** [ann = User.new('ann')]. *)
Definition ann_created : state := (new User [VStr "ann"] ∅ User_defined).2.

(** [bob = User.new('bob', 7)] after that. *)
Definition bob_created : state := (new User [VStr "bob"; VInt 7] ∅ ann_created).2.

(** [User.get_or_create(_id=ann._id, name='bob')] after [ann] was created:
    no document matches, and the constructor runs. *)
Definition ann_rebuilt : state :=
  (get_or_create User [] {["_id" := VOid 0; "name" := VStr "bob"]} ann_created).2.





(** What [ann.__dict__] and [bob.__dict__] hold after [new]. *)
Definition ann_fields : dict :=
  {["name" := VStr "ann"; "age" := VInt 0; "_id" := VOid 0;
    "___internal___" := VBool true]}.

Definition bob_fields : dict :=
  {["name" := VStr "bob"; "age" := VInt 7; "_id" := VOid 1;
    "___internal___" := VBool true]}.


(** ** The rest of the module: configuration, decorators, references *)

(** The two class attributes of [MongoDbModel] that [mongodb_config] and
    [set_default_database] assign and that a class statement reads. *)
Record module_attrs := ModuleAttrs {
  _DEFAULT_CLIENT : option client;
  _DEFAULT_DATABASE : option string
}.




Module decorators.

(** [@database(database_or_name)] and [@collection(collection_or_name)] on
    a class; [is_model] says whether [MongoDbModel] is in its [__mro__].
    The class comes back in either case. *)
Definition database (database_or_name : binding string) (is_model : bool)
  : py unit :=
  if is_model then set_database database_or_name else mret tt.

Definition collection (collection_or_name : binding (string * string))
    (is_model : bool) : py unit :=
  if is_model then set_collection collection_or_name else mret tt.

End decorators.

Section References.

Context (M : model).

(** The class statement: [__init_subclass__] reads the defaults in force. *)
Definition class_statement (m : module_attrs) (database collection : option string)
  : py unit :=
  __init_subclass__ M (_DEFAULT_CLIENT m) (_DEFAULT_DATABASE m) database collection.

(** [getattr(self, name)] for a field name: the instance [__dict__], then
    the class [__dict__]. *)
Definition getattr (d : dict) (name : string) : result value :=
  match d !! name with
  | Some v => Ok v
  | None =>
      match class_dict M !! name with
      | Some v => Ok v
      | None => Err AttributeError
      end
  end.

Definition _db_store_ (self : nat) : py value :=
  d ← instance_dict self;
  key_field ← gets (λ s, _KEY_FIELD (cls s));
  lift (getattr d key_field).

Definition _db_retrieve_ (stored_val : value) : py (option nat) :=
  key_field ← gets (λ s, _KEY_FIELD (cls s));
  find_one M [] {[key_field := stored_val]}.

(** No call changed the documents of any collection. *)
Definition same_documents : relation state := λ s s',
  ∀ h, Mongo.docs (Mongo.contents (server s') h)
       = Mongo.docs (Mongo.contents (server s) h).

(** The calls that only read the store. *)
Definition reads (o : op) : Prop :=
  match o with
  | Query _ | Find _ _ | FindOne _ _ | GetOrCreate _ _ | Construct _ _ => True
  | _ => False
  end.

(** Every document of the collection has its own [_id]. *)
Definition ids_unique (c : Mongo.collection) : Prop :=
  NoDup ((λ d : dict, dict_get d "_id") <$> Mongo.docs c).

End References.

(** [class Tag(MongoDbModel): label: Key[str]]. *)
Definition Tag : model :=
  Model "Tag" [("label", Annotation Key "str")] ∅
    plain_serializer plain_deserializer.


(** ** Running calls *)

Lemma bind_run {A B} (m : py A) (f : A → py B) (s : state) :
  (m ≫= f) s = match m s with
               | (Ok a, s') => f a s'
               | (Err e, s') => (Err e, s')
               end.
Proof. reflexivity. Qed.

Lemma translate_duplicate_run {A} (m : py A) (s : state) :
  translate_duplicate m s = (translated (m s).1, (m s).2).
Proof. unfold translate_duplicate. destruct (m s); reflexivity. Qed.

Ltac py_run :=
  repeat (rewrite bind_run || unfold gets, modify, raise, mret, py_ret || simpl).


Section Runs.

Context (M : model).

Lemma get_collection_run (s : state) :
  get_collection M s =
  match resolve M (cls s) with
  | None => (Err NoCollection, s)
  | Some h =>
      (Ok h, if _COLLECTION_INITIALIZED (cls s) then s else initialized_on M h s)
  end.
Proof.
  unfold get_collection, resolve, get_database, _init_collection, initialized_on.
  py_run.
  destruct (_DATABASE (cls s)) as [d|], (_COLLECTION (cls s)) as [h|];
    py_run; try reflexivity;
    destruct (_COLLECTION_INITIALIZED (cls s)); reflexivity.
Qed.

Lemma init_run args kwargs (s : state) :
  __init__ M args kwargs s =
  let d := dict_update (initial_dict M) (_get_all_args M args kwargs) in
  match getattr_id M d with
  | Err e => (Err e, s)
  | Ok id =>
      (Ok (next_addr s),
       State (with_WEAKREFS (<[id := next_addr s]>) (cls s))
             (<[next_addr s := d]> (heap s)) (S (next_addr s)) (server s))
  end.
Proof.
  unfold __init__, _get_all_args. cbv zeta. rewrite bind_run. unfold lift.
  destruct (getattr_id M _) as [id|e]; reflexivity.
Qed.

Lemma get_all_args_keywords (kwargs : dict) : _get_all_args M [] kwargs = kwargs.
Proof.
  unfold _get_all_args, dict_update.
  rewrite zip_with_nil_r, list_to_map_nil. apply (right_id_L ∅ (∪)).
Qed.

End Runs.

#[global] Instance preserved_preorder (P : state → Prop) : PreOrder (preserved P).
Proof. split; [intros s H; exact H | intros s1 s2 s3 H1 H2 H; auto]. Qed.

#[global] Instance unchanged_preorder {A} (f : state → A) : PreOrder (unchanged f).
Proof.
  split; [intros s; reflexivity | intros s1 s2 s3 H1 H2].
  unfold unchanged in *. congruence.
Qed.


(** ** Facts about the store *)

Module MongoFacts.
Import Mongo.

Lemma contents_set_contents sv h c h' :
  contents (set_contents sv h c) h' = if decide (h = h') then c else contents sv h'.
Proof.
  unfold contents, set_contents. simpl. rewrite lookup_insert.
  destruct (decide (h = h')); reflexivity.
Qed.

Lemma create_index_contents sv h k h' :
  contents (create_index sv h k) h' =
  if decide (h = h') then
    Collection (docs (contents sv h))
      (if bool_decide (k ∈ indexes (contents sv h)) then indexes (contents sv h)
       else indexes (contents sv h) ++ [k])
  else contents sv h'.
Proof.
  unfold create_index. case_bool_decide as Hk.
  - destruct (decide (h = h')) as [<-|]; [|reflexivity].
    destruct (contents sv h); reflexivity.
  - apply contents_set_contents.
Qed.

Lemma create_index_docs sv h k h' :
  docs (contents (create_index sv h k) h') = docs (contents sv h').
Proof.
  rewrite create_index_contents. destruct (decide (h = h')) as [<-|]; reflexivity.
Qed.

Lemma create_index_indexes sv h k k' :
  k' ∈ indexes (contents (create_index sv h k) h) ↔
  k' = k ∨ k' ∈ indexes (contents sv h).
Proof.
  rewrite create_index_contents, decide_True by reflexivity. simpl.
  case_bool_decide as Hk.
  - split; [auto | intros [->|]; assumption].
  - rewrite elem_of_app, list_elem_of_singleton. tauto.
Qed.

Lemma create_indexes_docs sv h ks h' :
  docs (contents (foldl (λ sv k, create_index sv h k) sv ks) h') =
  docs (contents sv h').
Proof.
  revert sv. induction ks as [|k ks IH]; intros sv; simpl; [reflexivity|].
  rewrite IH. apply create_index_docs.
Qed.

Lemma create_indexes_indexes sv h ks k' :
  k' ∈ indexes (contents (foldl (λ sv k, create_index sv h k) sv ks) h) ↔
  k' ∈ ks ∨ k' ∈ indexes (contents sv h).
Proof.
  revert sv. induction ks as [|k ks IH]; intros sv; simpl.
  - rewrite elem_of_nil. tauto.
  - rewrite IH, create_index_indexes, elem_of_cons. tauto.
Qed.

Lemma split_match_Some flt l pre d post :
  split_match flt l = Some (pre, d, post) →
  l = pre ++ d :: post ∧ matches flt d = true.
Proof.
  revert pre. induction l as [|x l IH]; intros pre H; simpl in H; [discriminate|].
  destruct (matches flt x) eqn:Hx.
  - injection H as <- <- <-. split; [reflexivity | exact Hx].
  - destruct (split_match flt l) as [[[pre' d'] post']|]; [|discriminate].
    injection H as <- <- <-. destruct (IH pre' eq_refl) as [-> Hd].
    split; [reflexivity | exact Hd].
Qed.

Lemma update_one_result sv h flt upd :
  (update_one sv h flt upd).1 = Ok tt
  ∨ update_one sv h flt upd = (Err DuplicateKeyError, sv).
Proof.
  unfold update_one. destruct (split_match _ _) as [[[pre d] post]|]; [|by left].
  destruct (violates _ _ _); [by right | by left].
Qed.

Lemma Forall2_same {A} (P : A → A → Prop) (l : list A) :
  (∀ x, P x x) → Forall2 P l l.
Proof. intros H. induction l; constructor; auto. Qed.

(** [update_one] rewrites at most one document of its collection, and in
    it only the fields of the update. *)
Lemma update_one_docs sv h flt upd :
  Forall2 (λ old new : dict, ∀ f, upd !! f = None → new !! f = old !! f)
    (docs (contents sv h)) (docs (contents (update_one sv h flt upd).2 h)).
Proof.
  unfold update_one.
  destruct (split_match _ _) as [[[pre d] post]|] eqn:Hsplit;
    [|by apply Forall2_same].
  destruct (violates _ _ _); [by apply Forall2_same|].
  simpl. rewrite contents_set_contents, decide_True by reflexivity. simpl.
  apply split_match_Some in Hsplit as [-> _].
  apply Forall2_app; [by apply Forall2_same|].
  constructor; [|by apply Forall2_same].
  intros f Hf. unfold dict_update. rewrite lookup_union_r by exact Hf. reflexivity.
Qed.

Lemma update_one_other sv h flt upd h' :
  h ≠ h' → contents (update_one sv h flt upd).2 h' = contents sv h'.
Proof.
  intros Hne. unfold update_one.
  destruct (split_match _ _) as [[[pre d] post]|]; [|reflexivity].
  destruct (violates _ _ _); [reflexivity|]. simpl.
  rewrite contents_set_contents, decide_False by exact Hne. reflexivity.
Qed.

Lemma delete_many_docs sv h flt :
  docs (contents (delete_many sv h flt) h) =
  filter (λ d, matches flt d = false) (docs (contents sv h)).
Proof.
  unfold delete_many. rewrite contents_set_contents, decide_True by reflexivity.
  reflexivity.
Qed.


Lemma insert_one_run sv h d :
  insert_one sv h d =
  let c := contents sv h in
  let d' := insert_doc d (next_oid sv) in
  if violates c d' (docs c) then (Err DuplicateKeyError, sv)
  else (Ok (dict_get d' "_id"),
        Server (<[h := Collection (docs c ++ [d']) (indexes c)]> (colls sv))
               (N.succ (next_oid sv))).
Proof. reflexivity. Qed.



Lemma insert_one_contents sv h d id :
  (insert_one sv h d).1 = Ok id →
  id = dict_get (insert_doc d (next_oid sv)) "_id"
  ∧ contents (insert_one sv h d).2 h =
    Collection (docs (contents sv h) ++ [insert_doc d (next_oid sv)])
               (indexes (contents sv h)).
Proof.
  rewrite insert_one_run. cbv zeta. destruct (violates _ _ _); [discriminate|].
  simpl. intros [= <-]. split; [reflexivity|].
  unfold contents at 1. simpl. rewrite lookup_insert_eq. reflexivity.
Qed.

Lemma evolves_refl sv : evolves sv sv.
Proof. intros h k H. exact H. Qed.

Lemma evolves_trans sv1 sv2 sv3 : evolves sv1 sv2 → evolves sv2 sv3 → evolves sv1 sv3.
Proof. intros H1 H2 h k H. apply H2, H1, H. Qed.

Lemma set_contents_evolves sv h c :
  indexes c = indexes (contents sv h) → evolves sv (set_contents sv h c).
Proof.
  intros Hc h' k Hk. rewrite contents_set_contents.
  destruct (decide (h = h')) as [<-|]; [by rewrite Hc | exact Hk].
Qed.

Lemma create_index_evolves sv h k : evolves sv (create_index sv h k).
Proof.
  intros h' k' Hk'. destruct (decide (h = h')) as [<-|Hne].
  - apply create_index_indexes. by right.
  - rewrite create_index_contents, decide_False by exact Hne. exact Hk'.
Qed.

Lemma create_indexes_evolves sv h ks :
  evolves sv (foldl (λ sv k, create_index sv h k) sv ks).
Proof.
  revert sv. induction ks as [|k ks IH]; intros sv; simpl; [apply evolves_refl|].
  eapply evolves_trans; [apply create_index_evolves | apply IH].
Qed.

Lemma insert_one_evolves sv h d : evolves sv (insert_one sv h d).2.
Proof.
  rewrite insert_one_run. cbv zeta.
  destruct (violates _ _ _); [apply evolves_refl|]. simpl.
  apply (set_contents_evolves sv h (Collection _ _)). reflexivity.
Qed.

Lemma update_one_evolves sv h flt upd : evolves sv (update_one sv h flt upd).2.
Proof.
  unfold update_one. destruct (split_match _ _) as [[[pre d] post]|];
    [|apply evolves_refl].
  destruct (violates _ _ _); [apply evolves_refl|].
  by apply set_contents_evolves.
Qed.

Lemma delete_one_evolves sv h flt : evolves sv (delete_one sv h flt).
Proof.
  unfold delete_one. destruct (split_match _ _) as [[[pre d] post]|];
    [|apply evolves_refl].
  by apply set_contents_evolves.
Qed.

Lemma delete_many_evolves sv h flt : evolves sv (delete_many sv h flt).
Proof. unfold delete_many. by apply set_contents_evolves. Qed.

End MongoFacts.

(** ** Framing calls *)

Section Frames.

Context (R : relation state) `{!PreOrder R}.

Lemma frames_ret {A} (a : A) : frames R (mret a).
Proof. intros s. simpl. reflexivity. Qed.

Lemma frames_raise {A} (e : exn) : frames R (raise (A:=A) e).
Proof. intros s. simpl. reflexivity. Qed.

Lemma frames_gets {A} (f : state → A) : frames R (gets f).
Proof. intros s. simpl. reflexivity. Qed.

Lemma frames_lift {A} (r : result A) : frames R (lift r).
Proof. intros s. simpl. reflexivity. Qed.

Lemma frames_modify (f : state → state) :
  (∀ s, R s (f s)) → frames R (modify f).
Proof. intros H s. apply H. Qed.

Lemma frames_bind {A B} (m : py A) (f : A → py B) :
  frames R m → (∀ a, frames R (f a)) → frames R (m ≫= f).
Proof.
  intros Hm Hf s. rewrite bind_run. specialize (Hm s).
  destruct (m s) as [[a|e] s1]; simpl in *; [|exact Hm].
  etrans; [exact Hm | apply Hf].
Qed.

Lemma frames_translate_duplicate {A} (m : py A) :
  frames R m → frames R (translate_duplicate m).
Proof. intros H s. rewrite translate_duplicate_run. apply H. Qed.

Lemma frames_mapM {A B} (f : A → py B) (l : list A) :
  (∀ a, frames R (f a)) → frames R (mapM f l).
Proof.
  intros H. induction l as [|a l IH]; simpl.
  - apply frames_ret.
  - apply frames_bind; [apply H | intros b].
    apply frames_bind; [apply IH | intros k]. apply frames_ret.
Qed.

Lemma frames_instance_dict (self : nat) : frames R (instance_dict self).
Proof. intros s. unfold instance_dict. destruct (heap s !! self); reflexivity. Qed.

End Frames.

(** Breaks a call into its steps, leaving the state updates. *)
Ltac frames_apply lem := apply lem; [exact _ | ..].

Ltac frames_steps :=
  repeat match goal with
    | |- frames _ (mret _) => frames_apply @frames_ret
    | |- frames _ (raise _) => frames_apply @frames_raise
    | |- frames _ (gets _) => frames_apply @frames_gets
    | |- frames _ (lift _) => frames_apply @frames_lift
    | |- frames _ (instance_dict _) => frames_apply @frames_instance_dict
    | |- frames _ (translate_duplicate _) => apply frames_translate_duplicate
    | |- frames _ (mapM _ _) => frames_apply @frames_mapM; intros ?
    | |- frames _ (mbind _ _) => frames_apply @frames_bind; [|intros ?]
    | |- frames _ (match ?x with _ => _ end) => destruct x
    | |- frames _ _ => progress lazy zeta
    end.

(** A relation the primitive state updates respect is respected by the
    calls built from them.  The hypotheses are added as the calls need
    them. *)
Section FramesOfCalls.

Context (M : model) (R : relation state) `{!PreOrder R}.

Lemma frames_get_collection :
  (∀ s sv, Mongo.evolves (server s) sv → R s (set_server (λ _, sv) s)) →
  (∀ s, R s (set_cls (with_COLLECTION_INITIALIZED true) s)) →
  frames R (get_collection M).
Proof.
  intros Hstore Hflag s. rewrite get_collection_run.
  destruct (resolve M (cls s)) as [h|]; [|reflexivity].
  destruct (_COLLECTION_INITIALIZED (cls s)); [reflexivity|].
  unfold initialized_on. cbn [snd]. etrans; [|apply Hflag].
  apply (Hstore s). apply MongoFacts.create_indexes_evolves.
Qed.

Lemma frames_init :
  (∀ s id d,
     R s (State (with_WEAKREFS (<[id := next_addr s]>) (cls s))
                (<[next_addr s := d]> (heap s)) (S (next_addr s)) (server s))) →
  ∀ args kwargs, frames R (__init__ M args kwargs).
Proof.
  intros Hreg args kwargs s. rewrite init_run. cbv zeta.
  destruct (getattr_id M _); [apply Hreg | reflexivity].
Qed.

Lemma frames_get :
  (∀ args kwargs, frames R (__init__ M args kwargs)) →
  ∀ doc, frames R (_get M doc).
Proof.
  intros Hinit doc. unfold _get, construct, weakref_call.
  frames_steps; apply Hinit.
Qed.

Section Calls.

Hypothesis R_get_collection : frames R (get_collection M).
Hypothesis R_store :
  ∀ s sv, Mongo.evolves (server s) sv → R s (set_server (λ _, sv) s).

Lemma frames_delete_all args kwargs : frames R (delete_all M args kwargs).
Proof.
  unfold delete_all. frames_steps; [apply R_get_collection|].
  intros s. apply (R_store s), MongoFacts.delete_many_evolves.
Qed.

Lemma frames_store {A} (f : Mongo.server → result A * Mongo.server) :
  (∀ sv, Mongo.evolves sv (f sv).2) → frames R (store_call f).
Proof.
  intros Hf s. unfold store_call. specialize (Hf (server s)).
  destruct (f (server s)) as [r sv]. apply (R_store s), Hf.
Qed.

Section Retrieving.

Hypothesis R_get : ∀ doc, frames R (_get M doc).

Lemma frames_query q : frames R (query M q).
Proof.
  unfold query. frames_steps; [apply R_get_collection | apply R_get].
Qed.

Lemma frames_find args kwargs : frames R (find M args kwargs).
Proof.
  unfold find. frames_steps; [apply R_get_collection | apply R_get].
Qed.

Lemma frames_find_one args kwargs : frames R (find_one M args kwargs).
Proof.
  unfold find_one. frames_steps; [apply R_get_collection | apply R_get].
Qed.

Hypothesis R_init : ∀ args kwargs, frames R (__init__ M args kwargs).

Lemma frames_new args kwargs : frames R (new M args kwargs).
Proof.
  unfold new. frames_steps; [apply R_get_collection | | apply R_init].
  apply frames_store. intros sv. apply MongoFacts.insert_one_evolves.
Qed.

Lemma frames_get_or_create args kwargs : frames R (get_or_create M args kwargs).
Proof.
  unfold get_or_create. frames_steps; [apply frames_find_one | apply R_init].
Qed.

End Retrieving.

Section Mutating.

Hypothesis R_assign :
  ∀ s self d, is_Some (heap s !! self) → R s (set_heap (<[self := d]>) s).

Lemma frames_update self kwargs : frames R (update M self kwargs).
Proof.
  unfold update. case_bool_decide; [frames_steps|].
  intros s. rewrite bind_run. unfold instance_dict.
  destruct (heap s !! self) as [d|] eqn:Hself; [|reflexivity].
  rewrite bind_run. unfold modify at 1. cbv beta iota.
  etrans; [apply (R_assign s self (dict_update d (declared_updates M kwargs)));
           eauto|].
  set (s0 := set_heap _ s). clearbody s0. clear s Hself. revert s0.
  match goal with |- ∀ s0, R s0 (snd (?m s0)) => change (frames R m) end.
  frames_steps; [apply R_get_collection|].
  apply frames_store. intros sv. apply MongoFacts.update_one_evolves.
Qed.

End Mutating.

Section Evicting.

Hypothesis R_evict : ∀ s id, R s (set_cls (with_WEAKREFS (base.delete id)) s).

Lemma frames_delete self : frames R (delete M self).
Proof.
  unfold delete. frames_steps; try apply R_get_collection.
  - intros s. apply (R_store s), MongoFacts.delete_one_evolves.
  - apply frames_modify. auto.
Qed.

End Evicting.

End Calls.

End FramesOfCalls.

Section FramesOfBinding.

Context (R : relation state) `{!PreOrder R}.

Lemma frames_set_database b :
  (∀ s d, R s (set_cls (with_DATABASE d) s)) → frames R (set_database b).
Proof.
  intros H. unfold set_database, _get_client.
  frames_steps; apply frames_modify; auto.
Qed.

Lemma frames_set_collection b :
  (∀ s h, R s (set_cls (with_COLLECTION h) s)) → frames R (set_collection b).
Proof.
  intros H. unfold set_collection, get_database.
  frames_steps; apply frames_modify; auto.
Qed.

Lemma frames_scan_keys annos :
  (∀ s k, R s (set_cls (with_KEY_FIELD k) s)) → frames R (scan_keys annos).
Proof.
  intros H. induction annos as [|[anno val] rest IH]; simpl; frames_steps; auto.
  all: apply frames_modify; auto.
Qed.

Lemma frames_collect a :
  (∀ s, R s (set_heap (base.delete a) s)) → frames R (collect a).
Proof. intros H. apply frames_modify; auto. Qed.

End FramesOfBinding.

(** One call, whichever it is; then the parts every call is made of. *)
Ltac frames_call :=
  lazymatch goal with
  | |- ?R ?s (snd (?m ?s)) => revert s; change (frames R m)
  | |- _ => idtac
  end;
  first [ apply frames_query | apply frames_find | apply frames_find_one
        | apply frames_delete_all | apply frames_new
        | apply frames_get_or_create | apply frames_init
        | apply frames_update | apply frames_delete
        | apply frames_set_database | apply frames_set_collection
        | apply frames_collect | apply frames_get_collection ];
  try exact _.

Ltac frames_parts :=
  repeat match goal with
    | |- PreOrder _ => exact _
    | |- frames _ (get_collection _) => apply frames_get_collection
    | |- ∀ doc, frames _ (_get _ doc) => apply frames_get
    | |- ∀ args kwargs, frames _ (__init__ _ args kwargs) => apply frames_init
    end.

(** ** Collection binding and index creation *)

Section Binding.

Context (M : model).

Lemma indexed_fields_spec k :
  k ∈ indexed_fields M ↔
  ∃ a, (k, a) ∈ __annotations__ M ∧ (origin a = Key ∨ origin a = Unique).
Proof.
  unfold indexed_fields. rewrite list_elem_of_fmap. split.
  - intros ([k' a] & -> & Hin). apply list_elem_of_filter in Hin as [Hu Hin].
    exists a. split; [exact Hin|]. simpl in Hu. unfold unique_or_key in Hu.
    destruct (origin a); [discriminate | auto | auto].
  - intros (a & Hin & Ho). exists (k, a). split; [reflexivity|].
    apply list_elem_of_filter. split; [|exact Hin]. simpl. unfold unique_or_key.
    destruct Ho as [-> | ->]; reflexivity.
Qed.

(** No call clears the initialized flag. *)
Lemma initialized_stays (o : op) (s : state) :
  preserved (λ s, _COLLECTION_INITIALIZED (cls s) = true) s (run_op M o s).
Proof.
  destruct o; cbn [run_op]; frames_call; frames_parts; intros; intros ?; simpl; auto.
Qed.

Lemma initialized_stays_run (ops : list op) (s : state) :
  _COLLECTION_INITIALIZED (cls s) = true →
  _COLLECTION_INITIALIZED (cls (run M ops s)) = true.
Proof.
  revert s. induction ops as [|o ops IH]; intros s H; simpl; [exact H|].
  apply IH. apply (initialized_stays o s H).
Qed.

(** Class definition does not touch the server and leaves the class
    uninitialized. *)
Lemma frames_class_body (R : relation state) `{!PreOrder R} db co :
  (∀ s d, R s (set_cls (with_DATABASE d) s)) →
  (∀ s h, R s (set_cls (with_COLLECTION h) s)) →
  (∀ s k, R s (set_cls (with_KEY_FIELD k) s)) →
  frames R
    (match truthy db with
     | Some n => set_database (ByName n)
     | None => mret tt
     end;;
     match truthy co with
     | Some n => set_collection (ByName n)
     | None => mret tt
     end;;
     scan_keys (__annotations__ M)).
Proof.
  intros Hd Hc Hk. frames_steps.
  all: first [ apply frames_set_database | apply frames_set_collection
             | apply frames_scan_keys ]; first [exact _ | assumption].
Qed.

Lemma class_definition_lazy dc dd db co (s : state) :
  server (__init_subclass__ M dc dd db co s).2 = server s ∧
  _COLLECTION_INITIALIZED (cls (__init_subclass__ M dc dd db co s).2) = false.
Proof.
  unfold __init_subclass__. rewrite bind_run.
  unfold modify at 1. cbv beta iota.
  set (s1 := set_cls _ s). split.
  - change (server s) with (server s1).
    apply (frames_class_body (unchanged server)); intros; reflexivity.
  - apply (frames_class_body
             (preserved (λ s, _COLLECTION_INITIALIZED (cls s) = false)));
      [intros; intros ?; assumption .. | reflexivity].
Qed.

(** C7. Unique indexes are created lazily and once per class.  Class
    definition touches no index and leaves the class uninitialized.  The
    first successful [get_collection] sets the initialized flag and leaves
    on the resolved collection a unique index for every field whose
    annotation is key-marked or unique-marked, adding no other index.
    After it the flag stays set through every later call, and
    [get_collection] then changes nothing at all. *)
Theorem unique_indexes_created_once
    (s : state) (h : string * string) (s' : state) (ops : list op) :
  _COLLECTION_INITIALIZED (cls s) = false →
  get_collection M s = (Ok h, s') →
  _COLLECTION_INITIALIZED (cls s') = true
  ∧ (∀ k a, (k, a) ∈ __annotations__ M → origin a = Key ∨ origin a = Unique →
       k ∈ Mongo.indexes (Mongo.contents (server s') h))
  ∧ (∀ k, k ∈ Mongo.indexes (Mongo.contents (server s') h) →
       k ∈ Mongo.indexes (Mongo.contents (server s) h)
       ∨ ∃ a, (k, a) ∈ __annotations__ M ∧ (origin a = Key ∨ origin a = Unique))
  ∧ _COLLECTION_INITIALIZED (cls (run M ops s')) = true
  ∧ (get_collection M (run M ops s')).2 = run M ops s'
  ∧ (∀ dc dd db co s0,
       server (__init_subclass__ M dc dd db co s0).2 = server s0
       ∧ _COLLECTION_INITIALIZED (cls (__init_subclass__ M dc dd db co s0).2) = false).
Proof.
  intros Hflag Hget. rewrite get_collection_run, Hflag in Hget.
  destruct (resolve M (cls s)) as [h0|]; [|discriminate].
  injection Hget as <- <-.
  assert (Hs' : _COLLECTION_INITIALIZED (cls (initialized_on M h0 s)) = true)
    by reflexivity.
  split; [exact Hs'|]. split; [|split; [|split; [|split]]].
  - intros k a Hin Ho. simpl. apply MongoFacts.create_indexes_indexes. left.
    apply indexed_fields_spec. eauto.
  - intros k Hk. simpl in Hk. apply MongoFacts.create_indexes_indexes in Hk.
    destruct Hk as [Hk|Hk]; [right | left; exact Hk].
    apply indexed_fields_spec, Hk.
  - apply initialized_stays_run, Hs'.
  - rewrite get_collection_run, (initialized_stays_run ops _ Hs').
    destruct (resolve M _); reflexivity.
  - intros. apply class_definition_lazy.
Qed.

(** The bindings survive every call but the two that set them. *)
Lemma bindings_stay (o : op) (s : state) :
  ¬ rebinds o →
  unchanged (λ s, (_COLLECTION (cls s), _DATABASE (cls s))) s (run_op M o s).
Proof.
  intros Ho. destruct o; cbn [run_op]; try (exfalso; apply Ho; exact I);
    frames_call; frames_parts; intros; reflexivity.
Qed.

Lemma bindings_stay_run (ops : list op) (s : state) :
  Forall (λ o, ¬ rebinds o) ops →
  _COLLECTION (cls (run M ops s)) = _COLLECTION (cls s) ∧
  _DATABASE (cls (run M ops s)) = _DATABASE (cls s).
Proof.
  intros Hops. revert s. induction Hops as [|o ops Ho _ IH]; intros s; simpl.
  - split; reflexivity.
  - destruct (IH (run_op M o s)) as [-> ->].
    pose proof (bindings_stay o s Ho) as H. unfold unchanged in H.
    injection H as -> ->. split; reflexivity.
Qed.

(** C2, as the code has it.  With an explicit collection bound and no
    database bound, [get_collection] returns the explicit collection; with
    no explicit collection it returns the collection named after the class
    in the bound database; with neither it raises [NoCollection].  The
    call itself changes neither binding, and the answer is recomputed from
    the bindings each time: it is the same after any calls that do not
    rebind. *)
Theorem get_collection_resolution (s : state) (ops : list op) :
  _COLLECTION (cls s) = None ∨ _DATABASE (cls s) = None →
  Forall (λ o, ¬ rebinds o) ops →
  (get_collection M s).1 =
    match _COLLECTION (cls s), _DATABASE (cls s) with
    | Some h, _ => Ok h
    | None, Some d => Ok (Mongo.get_collection d (__name__ M))
    | None, None => Err NoCollection
    end
  ∧ _COLLECTION (cls (get_collection M s).2) = _COLLECTION (cls s)
  ∧ _DATABASE (cls (get_collection M s).2) = _DATABASE (cls s)
  ∧ (get_collection M (run M ops (get_collection M s).2)).1 = (get_collection M s).1.
Proof.
  intros Hone Hops.
  assert (Hkeep : _COLLECTION (cls (get_collection M s).2) = _COLLECTION (cls s)
                  ∧ _DATABASE (cls (get_collection M s).2) = _DATABASE (cls s)).
  { rewrite get_collection_run. destruct (resolve M (cls s)); [|by split].
    destruct (_COLLECTION_INITIALIZED (cls s)); by split. }
  assert (Hres : ∀ t, (get_collection M t).1 =
                      match resolve M (cls t) with
                      | Some h => Ok h
                      | None => Err NoCollection
                      end).
  { intros t. rewrite get_collection_run. by destruct (resolve M (cls t)). }
  split; [|split; [apply Hkeep | split; [apply Hkeep|]]].
  - rewrite Hres. unfold resolve.
    destruct Hone as [-> | ->]; [by destruct (_DATABASE (cls s))|].
    by destruct (_COLLECTION (cls s)).
  - rewrite !Hres. unfold resolve.
    destruct (bindings_stay_run ops (get_collection M s).2 Hops) as [-> ->].
    destruct Hkeep as [-> ->]. reflexivity.
Qed.

End Binding.

(** ** Invariants of the reachable states *)

Section Invariants.

Context (M : model).

Lemma heap_fresh_op (o : op) (s : state) :
  heap_fresh s → heap_fresh (run_op M o s).
Proof.
  revert s. change (∀ s, preserved heap_fresh s (run_op M o s)). intros s.
  destruct o; cbn [run_op]; frames_call; frames_parts;
    intros; intros Hfresh; try exact Hfresh.
  all: intros b Hb; simpl in Hb.
  all: match goal with
       | Hb : is_Some (<[next_addr ?s := _]> _ !! ?b) |- _ =>
           destruct (decide (b = next_addr s)) as [->|Hne];
           [simpl; lia
           |rewrite lookup_insert_ne in Hb by done;
            specialize (Hfresh b Hb); simpl; lia]
       | Hb : is_Some (<[?self := _]> _ !! ?b) |- _ =>
           destruct (decide (b = self)) as [->|Hne];
           [by apply Hfresh
           |rewrite lookup_insert_ne in Hb by done; by apply Hfresh]
       | Hb : is_Some (base.delete ?a _ !! ?b) |- _ =>
           apply Hfresh; destruct (decide (b = a)) as [->|Hne];
           [rewrite lookup_delete_eq in Hb; by destruct Hb
           |by rewrite lookup_delete_ne in Hb]
       end.
Qed.

Lemma indexes_ready_get_collection :
  frames (preserved (indexes_ready M)) (get_collection M).
Proof.
  intros s Hready. rewrite get_collection_run.
  destruct (resolve M (cls s)) as [h|] eqn:Hres; [|exact Hready].
  destruct (_COLLECTION_INITIALIZED (cls s)) eqn:Hflag; [exact Hready|].
  intros _ h' Hres' k Hk. simpl in *.
  change (resolve M (with_COLLECTION_INITIALIZED true (cls s)))
    with (resolve M (cls s)) in Hres'.
  assert (h' = h) as -> by congruence.
  apply MongoFacts.create_indexes_indexes. by left.
Qed.

Lemma indexes_ready_store (s : state) sv :
  Mongo.evolves (server s) sv →
  preserved (indexes_ready M) s (set_server (λ _, sv) s).
Proof. intros Hev Hready Hflag h Hres k Hk. apply Hev, (Hready Hflag h Hres k Hk). Qed.

Lemma indexes_ready_op (o : op) (s : state) :
  ¬ rebinds o → indexes_ready M s → indexes_ready M (run_op M o s).
Proof.
  intros Ho. revert s. change (∀ s, preserved (indexes_ready M) s (run_op M o s)).
  intros s.
  destruct o; cbn [run_op]; try (exfalso; apply Ho; exact I);
    frames_call;
    try apply indexes_ready_get_collection;
    try apply indexes_ready_store;
    frames_parts;
    intros; intros Hready; exact Hready.
Qed.

(** Every state a program reaches from a defined class without rebinding
    it has the indexes in place and the heap below the next address. *)
Lemma invariants_run (ops : list op) (s : state) :
  Forall (λ o, ¬ rebinds o) ops →
  heap_fresh s → indexes_ready M s →
  heap_fresh (run M ops s) ∧ indexes_ready M (run M ops s).
Proof.
  intros Hops. revert s. induction Hops as [|o ops Ho _ IH]; intros s Hf Hr; simpl.
  - by split.
  - apply IH; [by apply heap_fresh_op | by apply indexes_ready_op].
Qed.

Lemma invariants_at_definition dc dd db co (s : state) :
  heap_fresh s →
  heap_fresh (__init_subclass__ M dc dd db co s).2
  ∧ indexes_ready M (__init_subclass__ M dc dd db co s).2.
Proof.
  intros Hfresh. split.
  - unfold __init_subclass__. rewrite bind_run. unfold modify at 1.
    cbv beta iota. set (s1 := set_cls _ s).
    apply (frames_class_body M (preserved heap_fresh));
      [intros; intros ?; assumption .. | exact Hfresh].
  - intros Hflag.
    rewrite (proj2 (class_definition_lazy M dc dd db co s)) in Hflag. discriminate.
Qed.

End Invariants.

(** ** Class definition: the key scan *)

Section KeyScan.

(** Without a key-marked field the scan changes nothing. *)
Lemma scan_keys_none annos (s : state) :
  key_fields annos = [] → scan_keys annos s = (Ok tt, s).
Proof.
  unfold key_fields. induction annos as [|[anno val] rest IH]; intros Hk; simpl.
  - reflexivity.
  - rewrite filter_cons in Hk. simpl in Hk.
    destruct (is_key val) eqn:Hval.
    + rewrite decide_True in Hk by reflexivity. discriminate.
    + rewrite decide_False in Hk by discriminate.
      rewrite bind_run. simpl. apply IH, Hk.
Qed.

(** Once the key field differs from ['_id'], any further key-marked field
    raises. *)
Lemma scan_keys_taken annos (s : state) :
  _KEY_FIELD (cls s) ≠ "_id" → key_fields annos ≠ [] →
  (scan_keys annos s).1 = Err MultipleKeys.
Proof.
  unfold key_fields. intros Hkf.
  induction annos as [|[anno val] rest IH]; intros Hk; simpl.
  - contradiction.
  - rewrite filter_cons in Hk. simpl in Hk. rewrite bind_run.
    destruct (is_key val) eqn:Hval.
    + rewrite bind_run. unfold gets.
      rewrite bool_decide_true by exact Hkf. reflexivity.
    + rewrite decide_False in Hk by discriminate. simpl. apply IH, Hk.
Qed.

(** The scan on a class that inherits the key field ['_id'] and marks no
    field of that name as key: no key-marked field keeps ['_id'], one makes
    it the key field, more raise [MultipleKeys]. *)
Lemma scan_keys_spec annos (s : state) :
  _KEY_FIELD (cls s) = "_id" → "_id" ∉ key_fields annos →
  scan_keys annos s =
  match key_fields annos with
  | [] => (Ok tt, s)
  | [k] => (Ok tt, set_cls (with_KEY_FIELD k) s)
  | _ => (Err MultipleKeys, (scan_keys annos s).2)
  end.
Proof.
  intros Hid. induction annos as [|[anno val] rest IH]; intros Hno; [reflexivity|].
  unfold key_fields in *. rewrite filter_cons in *. cbn [snd] in *.
  destruct (is_key val) eqn:Hval.
  - rewrite decide_True in * by reflexivity. cbn [fmap list_fmap fst] in *.
    apply not_elem_of_cons in Hno as [Hne Hno].
    cbn [scan_keys]. rewrite Hval, bind_run, bind_run. unfold gets.
    rewrite Hid, bool_decide_false by (intros H; apply H; reflexivity).
    unfold modify at 1. cbv beta iota.
    destruct ((filter (λ p, is_key p.2 = true) rest).*1) as [|k2 ks] eqn:Hrest.
    + apply scan_keys_none. exact Hrest.
    + pose proof (scan_keys_taken rest (set_cls (with_KEY_FIELD anno) s)) as Ht.
      unfold key_fields in Ht. rewrite Hrest in Ht.
      specialize (Ht ltac:(simpl; congruence) ltac:(discriminate)).
      unfold modify. cbv beta iota.
      rewrite <- Ht. apply surjective_pairing.
  - rewrite decide_False in * by discriminate.
    cbn [scan_keys]. rewrite Hval, bind_run. simpl. apply IH, Hno.
Qed.

End KeyScan.

(** C3, where the code departs from it: [Page] marks two fields as key,
    the first of them named ['_id'], and its definition goes through, with
    the second one as key field. *)
Theorem two_keys_accepted :
  (__init_subclass__ Page (Some MongoClient) (Some "MyDB") None None boot).1 = Ok tt
  ∧ key_fields (__annotations__ Page) = ["_id"; "slug"]
  ∧ _KEY_FIELD (cls (__init_subclass__ Page (Some MongoClient) (Some "MyDB")
                       None None boot).2) = "slug".
Proof. repeat split. Qed.

(** ** [get_or_create] *)

Section GetOrCreate.

Context (M : model).

Lemma get_or_create_run args kwargs (s : state) :
  get_or_create M args kwargs s =
  match find_one M args kwargs s with
  | (Ok (Some a), s1) => (Ok a, s1)
  | (Ok None, s1) => __init__ M args kwargs s1
  | (Err e, s1) => (Err e, s1)
  end.
Proof.
  unfold get_or_create. rewrite bind_run.
  destruct (find_one M args kwargs s) as [[[a|]|e] s1]; reflexivity.
Qed.

(** The constructor never writes to the server. *)
Lemma init_leaves_server args kwargs (s : state) :
  server (__init__ M args kwargs s).2 = server s.
Proof.
  apply (frames_init M (unchanged server)). intros; reflexivity.
Qed.

(** The constructor raises when neither the arguments, nor the declared
    fields, nor the class supply [_id]. *)
Lemma init_without_id args kwargs (s : state) :
  _get_all_args M args kwargs !! "_id" = None →
  "_id" ∉ field_names M → class_dict M !! "_id" = None →
  __init__ M args kwargs s = (Err AttributeError, s).
Proof.
  intros Hargs Hdecl Hcls. unfold __init__. rewrite bind_run.
  unfold lift, getattr_id, dict_update.
  fold (dict_update (list_to_map (zip (field_names M) args)) kwargs).
  fold (_get_all_args M args kwargs).
  assert (Hinit : initial_dict M !! "_id" = None).
  { unfold initial_dict. apply not_elem_of_list_to_map_1.
    rewrite <- list_fmap_compose. intros Hin. apply Hdecl.
    apply list_elem_of_fmap in Hin as (k & Hk & Hin). simpl in Hk. by subst k. }
  rewrite (proj2 (lookup_union_None _ _ _) (conj Hargs Hinit)), Hcls.
  reflexivity.
Qed.

End GetOrCreate.

(** C6, where the code departs from it: no [User] is named bob, and
    [User.get_or_create(name='bob')] raises [AttributeError] from the
    constructor instead of returning an instance; nothing is persisted. *)
Theorem get_or_create_miss_raises :
  (find_one User [] {["name" := VStr "bob"]} ann_created).1 = Ok None
  ∧ (get_or_create User [] {["name" := VStr "bob"]} ann_created).1
    = Err AttributeError
  ∧ server (get_or_create User [] {["name" := VStr "bob"]} ann_created).2
    = server ann_created.
Proof. repeat split; vm_compute; reflexivity. Qed.

(** ** Deleting *)

Section Deleting.

Context (M : model).

Lemma delete_all_run args kwargs (s : state) :
  delete_all M args kwargs s =
  match get_collection M s with
  | (Ok h, s1) =>
      (Ok tt, set_server (λ sv, Mongo.delete_many sv h
                                  (_get_store_vals M (_get_all_args M args kwargs))) s1)
  | (Err e, s1) => (Err e, s1)
  end.
Proof.
  unfold delete_all. rewrite bind_run.
  destruct (get_collection M s) as [[h|e] s1]; reflexivity.
Qed.

(** C8. [delete_all] deletes from the resolved collection every document
    the filter matches, and only those; the weak cache and the instances
    are exactly as before, so an instance cached for a deleted document
    stays registered.  When no collection resolves, the call raises and
    the server is as before. *)
Theorem delete_all_keeps_cache args kwargs (s : state) :
  _WEAKREFS (cls (delete_all M args kwargs s).2) = _WEAKREFS (cls s)
  ∧ heap (delete_all M args kwargs s).2 = heap s
  ∧ match get_collection M s with
    | (Ok h, _) =>
        (delete_all M args kwargs s).1 = Ok tt
        ∧ Mongo.docs (Mongo.contents (server (delete_all M args kwargs s).2) h) =
          filter (λ d, Mongo.matches
                         (_get_store_vals M (_get_all_args M args kwargs)) d = false)
                 (Mongo.docs (Mongo.contents (server s) h))
    | (Err e, _) =>
        (delete_all M args kwargs s).1 = Err e
        ∧ server (delete_all M args kwargs s).2 = server s
    end.
Proof.
  split; [|split].
  - apply (frames_delete_all M (unchanged (λ s, _WEAKREFS (cls s))));
      frames_parts; intros; reflexivity.
  - apply (frames_delete_all M (unchanged heap)); frames_parts; intros; reflexivity.
  - rewrite delete_all_run, get_collection_run.
    destruct (resolve M (cls s)) as [h|]; [|split; reflexivity].
    split; [reflexivity|]. simpl.
    unfold Mongo.delete_many. rewrite MongoFacts.contents_set_contents.
    rewrite decide_True by reflexivity. simpl.
    destruct (_COLLECTION_INITIALIZED (cls s)); [reflexivity|]. simpl.
    rewrite MongoFacts.create_indexes_docs. reflexivity.
Qed.

Lemma delete_run self (s : state) :
  delete M self s =
  match heap s !! self with
  | None => (Err DeadObject, s)
  | Some d =>
      match get_collection M s with
      | (Err e, s1) => (Err e, s1)
      | (Ok h, s1) =>
          match getattr_id M d with
          | Err e => (Err e, s1)
          | Ok id =>
              let s2 := set_server (λ sv, Mongo.delete_one sv h {["_id" := id]}) s1 in
              match _WEAKREFS (cls s1) !! id with
              | Some _ => (Ok tt, set_cls (with_WEAKREFS (base.delete id)) s2)
              | None => (Err KeyError, s2)
              end
          end
      end
  end.
Proof.
  unfold delete. rewrite bind_run. unfold instance_dict.
  destruct (heap s !! self) as [d|]; [|reflexivity].
  rewrite bind_run. destruct (get_collection M s) as [[h|e] s1]; [|reflexivity].
  rewrite bind_run. unfold lift.
  destruct (getattr_id M d) as [id|e]; [|reflexivity].
  rewrite bind_run. unfold modify at 1. cbv beta iota.
  rewrite bind_run. unfold gets. cbv beta iota zeta. simpl.
  destruct (_WEAKREFS (cls s1) !! id); reflexivity.
Qed.

(** C10. [delete] on an instance whose key has no cache entry raises
    [KeyError], after [delete_one] ran on the store; and that is the state
    a first successful [delete] leaves, so a second [delete] on the same
    instance raises [KeyError] in the same way. *)
Theorem delete_without_entry_raises
    self (s : state) (d : dict) (id : value) (h : string * string) (s1 : state) :
  heap s !! self = Some d →
  getattr_id M d = Ok id →
  get_collection M s = (Ok h, s1) →
  (_WEAKREFS (cls s) !! id = None →
     delete M self s =
     (Err KeyError, set_server (λ sv, Mongo.delete_one sv h {["_id" := id]}) s1))
  ∧ (∀ s', delete M self s = (Ok tt, s') →
       delete M self s' =
       (Err KeyError, set_server (λ sv, Mongo.delete_one sv h {["_id" := id]}) s')).
Proof.
  intros Hself Hid Hget.
  assert (Hrefs : _WEAKREFS (cls s1) = _WEAKREFS (cls s)).
  { pose proof (frames_get_collection M (unchanged (λ s, _WEAKREFS (cls s)))
                  ltac:(intros; reflexivity) ltac:(intros; reflexivity) s) as H.
    rewrite Hget in H. exact H. }
  split.
  - intros Hnone. rewrite delete_run, Hself, Hget, Hid. cbv zeta.
    rewrite Hrefs, Hnone. reflexivity.
  - intros s' Hfirst. rewrite delete_run, Hself, Hget, Hid in Hfirst.
    cbv zeta in Hfirst.
    destruct (_WEAKREFS (cls s1) !! id); [|discriminate].
    injection Hfirst as <-.
    rewrite get_collection_run in Hget.
    destruct (resolve M (cls s)) as [h0|] eqn:Hres; [|discriminate].
    injection Hget as -> Hs1.
    assert (Hflag : _COLLECTION_INITIALIZED (cls s1) = true).
    { rewrite <- Hs1. destruct (_COLLECTION_INITIALIZED (cls s)) eqn:Hf;
        [exact Hf | reflexivity]. }
    assert (Hres1 : resolve M (cls s1) = Some h).
    { rewrite <- Hs1. destruct (_COLLECTION_INITIALIZED (cls s)); exact Hres. }
    assert (Hheap : heap s1 = heap s).
    { rewrite <- Hs1. destruct (_COLLECTION_INITIALIZED (cls s)); reflexivity. }
    rewrite delete_run. simpl. rewrite Hheap, Hself.
    rewrite get_collection_run. simpl.
    change (resolve M (with_WEAKREFS (base.delete id) (cls s1)))
      with (resolve M (cls s1)).
    rewrite Hres1, Hflag, Hid. simpl. rewrite lookup_delete_eq. reflexivity.
Qed.

End Deleting.

(** ** Updating *)

Section Updating.

Context (M : model).

Lemma declared_updates_lookup kwargs k v :
  declared_updates M kwargs !! k = Some v ↔
  kwargs !! k = Some v ∧ k ∈ field_names M.
Proof. unfold declared_updates. rewrite map_lookup_filter_Some. reflexivity. Qed.

Lemma update_run self kwargs (s : state) :
  update M self kwargs s =
  let updates := declared_updates M kwargs in
  if bool_decide (updates = ∅) then (Ok tt, s)
  else match heap s !! self with
       | None => (Err DeadObject, s)
       | Some d =>
           let s0 := set_heap (<[self := dict_update d updates]>) s in
           match get_collection M s0 with
           | (Err e, s1) => (translated (Err e), s1)
           | (Ok h, s1) =>
               match getattr_id M (dict_update d updates) with
               | Err e => (translated (Err e), s1)
               | Ok id =>
                   let w := Mongo.update_one (server s1) h {["_id" := id]}
                              (_get_store_vals M updates) in
                   (translated w.1, set_server (λ _, w.2) s1)
               end
           end
       end.
Proof.
  unfold update. cbv zeta. case_bool_decide; [reflexivity|].
  rewrite bind_run. unfold instance_dict.
  destruct (heap s !! self) as [d|]; [|reflexivity].
  rewrite bind_run. unfold modify at 1. cbv beta iota.
  rewrite translate_duplicate_run, bind_run.
  destruct (get_collection M _) as [[h|e] s1]; [|reflexivity].
  rewrite bind_run. unfold lift.
  destruct (getattr_id M _) as [id|e]; [|reflexivity].
  unfold store_call. destruct (Mongo.update_one _ _ _ _) as [r sv]. reflexivity.
Qed.

(** Resolving the collection does not look at the heap. *)
Lemma get_collection_set_heap f (s : state) :
  get_collection M (set_heap f s) =
  ((get_collection M s).1, set_heap f (get_collection M s).2).
Proof.
  rewrite !get_collection_run. simpl.
  destruct (resolve M (cls s)); [|reflexivity].
  destruct (_COLLECTION_INITIALIZED (cls s)); reflexivity.
Qed.

Lemma get_collection_docs (s : state) h' :
  Mongo.docs (Mongo.contents (server (get_collection M s).2) h') =
  Mongo.docs (Mongo.contents (server s) h').
Proof.
  rewrite get_collection_run. destruct (resolve M (cls s)); [|reflexivity].
  destruct (_COLLECTION_INITIALIZED (cls s)); [reflexivity|]. simpl.
  apply MongoFacts.create_indexes_docs.
Qed.

Lemma get_collection_heap (s : state) : heap (get_collection M s).2 = heap s.
Proof.
  apply (frames_get_collection M (unchanged heap)); intros; reflexivity.
Qed.

Lemma getattr_id_error (d : dict) e :
  getattr_id M d = Err e → e = AttributeError.
Proof.
  unfold getattr_id. destruct (d !! "_id"); [discriminate|].
  destruct (class_dict M !! "_id"); [discriminate | congruence].
Qed.

Lemma translated_conflict {A} (r : result A) :
  r ≠ Err UniqueConflict →
  translated r = Err UniqueConflict ↔ r = Err DuplicateKeyError.
Proof.
  intros Hr. destruct r as [a|[]]; simpl; split; intros H;
    try discriminate; try reflexivity; contradiction.
Qed.

(** C5. [update] on a live instance, with at least one declared field
    among the keywords.  The store write is one [update_one] on the
    instance's [_id] whose [$set] holds exactly the keywords that are
    declared fields, serialized: it is computed from the keywords alone,
    not from the instance's other values, whatever they were set to in
    memory.  In the store every field outside the passed declared ones
    keeps its value in every document, and other collections keep their
    documents.  In memory the instance takes the passed declared values.
    The call raises [UniqueConflict] exactly when the store write raises
    its duplicate-key error. *)
Theorem update_writes_only_passed_fields
    self kwargs (s : state) (d : dict) (h : string * string) (id : value) :
  heap s !! self = Some d →
  declared_updates M kwargs ≠ ∅ →
  resolve M (cls s) = Some h →
  getattr_id M (dict_update d (declared_updates M kwargs)) = Ok id →
  let updates := declared_updates M kwargs in
  let w := Mongo.update_one (server (get_collection M s).2) h {["_id" := id]}
             (_get_store_vals M updates) in
  (update M self kwargs s).1 = translated w.1
  ∧ server (update M self kwargs s).2 = w.2
  ∧ (∀ k v, _get_store_vals M updates !! k = Some v ↔
            ∃ x, kwargs !! k = Some x ∧ k ∈ field_names M ∧ v = serialize M x)
  ∧ Forall2 (λ old new : dict,
               ∀ f, f ∉ field_names M ∨ kwargs !! f = None → new !! f = old !! f)
      (Mongo.docs (Mongo.contents (server s) h))
      (Mongo.docs (Mongo.contents w.2 h))
  ∧ (∀ h', h' ≠ h →
       Mongo.docs (Mongo.contents w.2 h') = Mongo.docs (Mongo.contents (server s) h'))
  ∧ heap (update M self kwargs s).2 = <[self := dict_update d updates]> (heap s)
  ∧ (∀ k v, kwargs !! k = Some v → k ∈ field_names M →
       dict_update d updates !! k = Some v)
  ∧ ((update M self kwargs s).1 = Err UniqueConflict ↔ w.1 = Err DuplicateKeyError).
Proof.
  intros Hself Hne Hres Hid updates w.
  assert (Hrun : update M self kwargs s =
                 (translated w.1,
                  set_server (λ _, w.2)
                    (set_heap (<[self := dict_update d updates]>)
                       (get_collection M s).2))).
  { unfold w, updates. rewrite update_run. cbv zeta.
    rewrite bool_decide_false by exact Hne.
    rewrite Hself, get_collection_set_heap. cbn [fst snd].
    rewrite get_collection_run, Hres. cbn [fst snd].
    rewrite Hid. reflexivity. }
  assert (Hpayload : ∀ k v, _get_store_vals M updates !! k = Some v ↔
            ∃ x, kwargs !! k = Some x ∧ k ∈ field_names M ∧ v = serialize M x).
  { intros k v. unfold _get_store_vals. rewrite lookup_fmap, fmap_Some.
    split.
    - intros (x & Hx & ->). apply declared_updates_lookup in Hx as [Hx Hk]. eauto.
    - intros (x & Hx & Hk & ->). exists x. split; [|reflexivity].
      apply declared_updates_lookup. auto. }
  rewrite Hrun. cbn [fst snd].
  split; [reflexivity|]. split; [reflexivity|]. split; [exact Hpayload|].
  split; [|split; [|split; [|split]]].
  - pose proof (MongoFacts.update_one_docs (server (get_collection M s).2) h
                  {["_id" := id]} (_get_store_vals M updates)) as Hdocs.
    fold w in Hdocs. rewrite get_collection_docs in Hdocs.
    eapply Forall2_impl; [exact Hdocs|]. intros old new Hf f Hout. apply Hf.
    destruct (_get_store_vals M updates !! f) as [v|] eqn:Hv; [|reflexivity].
    apply Hpayload in Hv as (x & Hx & Hk & _).
    destruct Hout as [Hout|Hout]; [contradiction | congruence].
  - intros h' Hh'. unfold w.
    rewrite MongoFacts.update_one_other by (intros ->; contradiction).
    apply get_collection_docs.
  - simpl. rewrite get_collection_heap. reflexivity.
  - intros k v Hk Hin. unfold dict_update. apply lookup_union_Some_l.
    apply declared_updates_lookup. auto.
  - apply translated_conflict.
    destruct (MongoFacts.update_one_result (server (get_collection M s).2) h
                {["_id" := id]} (_get_store_vals M updates)) as [Hw|Hw];
      fold w in Hw; rewrite Hw; discriminate.
Qed.

(** C9. When [update] raises [UniqueConflict], the instance already holds
    the passed declared values: they were assigned before the store write
    and stay; the documents in the store are as before the call. *)
Theorem update_conflict_not_rolled_back
    self kwargs (s : state) (d : dict) (s' : state) :
  heap s !! self = Some d →
  update M self kwargs s = (Err UniqueConflict, s') →
  heap s' !! self = Some (dict_update d (declared_updates M kwargs))
  ∧ (∀ k v, kwargs !! k = Some v → k ∈ field_names M →
       dict_update d (declared_updates M kwargs) !! k = Some v)
  ∧ (∀ h', Mongo.docs (Mongo.contents (server s') h') =
           Mongo.docs (Mongo.contents (server s) h')).
Proof.
  intros Hself Hup. rewrite update_run in Hup. cbv zeta in Hup.
  case_bool_decide as Hne; [discriminate|].
  rewrite Hself, get_collection_set_heap in Hup.
  rewrite get_collection_run in Hup.
  destruct (resolve M (cls s)) as [h|] eqn:Hres; [|discriminate].
  cbn [fst snd] in Hup.
  destruct (getattr_id M _) as [id|e] eqn:Hid;
    [|apply getattr_id_error in Hid as ->; discriminate].
  set (s1 := if _COLLECTION_INITIALIZED (cls s) then s else initialized_on M h s) in *.
  assert (Hs1 : s1 = (get_collection M s).2).
  { rewrite get_collection_run, Hres. reflexivity. }
  destruct (MongoFacts.update_one_result (server (set_heap
              (<[self := dict_update d (declared_updates M kwargs)]>) s1)) h
              {["_id" := id]}
              (_get_store_vals M (declared_updates M kwargs))) as [Hw|Hw];
    rewrite Hw in Hup; [discriminate|].
  injection Hup as <-. simpl. split; [|split].
  - rewrite Hs1, get_collection_heap. apply lookup_insert_eq.
  - intros k v Hk Hin. unfold dict_update. apply lookup_union_Some_l.
    apply declared_updates_lookup. auto.
  - intros h'. rewrite Hs1. apply get_collection_docs.
Qed.

End Updating.

(** ** Creating *)

Section Creating.

Context (M : model).

Lemma list_to_map_tabulate (g : string → value) (l : list string) k :
  (list_to_map ((λ k, (k, g k)) <$> l) : dict) !! k =
  if decide (k ∈ l) then Some (g k) else None.
Proof.
  induction l as [|x l IH].
  - rewrite fmap_nil, list_to_map_nil, lookup_empty.
    destruct (decide (k ∈ [])) as [H|]; [by apply elem_of_nil in H | done].
  - rewrite fmap_cons, list_to_map_cons.
    destruct (decide (x = k)) as [->|Hne].
    + rewrite lookup_insert_eq.
      destruct (decide (k ∈ k :: l)) as [|H]; [done|].
      exfalso. apply H, list_elem_of_here.
    + rewrite lookup_insert_ne, IH by exact Hne.
      destruct (decide (k ∈ l)) as [Hin|Hin], (decide (k ∈ x :: l)) as [Hin'|Hin'];
        try done.
      * exfalso. apply Hin'. by apply list_elem_of_further.
      * apply elem_of_cons in Hin' as [?|?]; [congruence | contradiction].
Qed.

(** What [new] stores under each declared field: the supplied value,
    else the class default. *)
Lemma new_doc_lookup all_args k :
  new_doc M all_args !! k =
  if decide (k ∈ field_names M)
  then Some (match all_args !! k with
             | Some v => v
             | None => _get_default M k
             end)
  else None.
Proof. unfold new_doc. apply list_to_map_tabulate. Qed.

(** An instance built from a full field map holds exactly that map. *)
Lemma init_full_fields (kwargs : dict) :
  (∀ k, k ∈ field_names M → is_Some (kwargs !! k)) →
  dict_update (initial_dict M) (_get_all_args M [] kwargs) = kwargs.
Proof.
  intros Hfull. unfold _get_all_args, dict_update.
  rewrite zip_with_nil_r, list_to_map_nil, (right_id_L ∅ (∪)).
  apply map_eq. intros k.
  destruct (kwargs !! k) as [v|] eqn:Hk.
  - apply lookup_union_Some_l. exact Hk.
  - rewrite lookup_union_r by exact Hk. unfold initial_dict.
    rewrite list_to_map_tabulate. destruct (decide (k ∈ field_names M)) as [Hin|];
      [|reflexivity].
    destruct (Hfull k Hin) as [v Hv]. congruence.
Qed.

Lemma new_run args kwargs (s : state) :
  new M args kwargs s =
  let doc := new_doc M (_get_all_args M args kwargs) in
  match get_collection M s with
  | (Err e, s1) => (translated (Err e), s1)
  | (Ok h, s1) =>
      let w := Mongo.insert_one (server s1) h (_get_store_vals M doc) in
      match w.1 with
      | Err e => (translated (Err e), set_server (λ _, w.2) s1)
      | Ok inserted_id =>
          __init__ M [] (<["___internal___" := VBool true]>
                           (<["_id" := inserted_id]> doc))
            (set_server (λ _, w.2) s1)
      end
  end.
Proof.
  unfold new. cbv zeta. rewrite bind_run, translate_duplicate_run, bind_run.
  destruct (get_collection M s) as [[h|[]] s1]; try reflexivity.
  unfold store_call. destruct (Mongo.insert_one _ _ _) as [[id|[]] sv]; reflexivity.
Qed.


(** The instance [new] builds on a successful insert. *)
Lemma init_after_insert (doc : dict) id (s : state) :
  (∀ k, k ∈ field_names M → is_Some (doc !! k)) →
  __init__ M [] (<["___internal___" := VBool true]> (<["_id" := id]> doc)) s =
  (Ok (next_addr s),
   State (with_WEAKREFS (<[id := next_addr s]>) (cls s))
         (<[next_addr s := <["___internal___" := VBool true]> (<["_id" := id]> doc)]>
            (heap s))
         (S (next_addr s)) (server s)).
Proof.
  intros Hfull. rewrite init_run. cbv zeta. rewrite init_full_fields.
  - unfold getattr_id. rewrite lookup_insert_ne, lookup_insert_eq by done.
    reflexivity.
  - intros k Hk. destruct (decide (k = "___internal___")) as [->|];
      [rewrite lookup_insert_eq; eauto|].
    rewrite lookup_insert_ne by done.
    destruct (decide (k = "_id")) as [->|]; [rewrite lookup_insert_eq; eauto|].
    rewrite lookup_insert_ne by done. auto.
Qed.


End Creating.

(** ** The identity cache *)

Section Identity.

Context (M : model).

Lemma get_run (doc : dict) (s : state) :
  _get M doc s =
  match doc !! "_id" with
  | None => (Err KeyError, s)
  | Some bson_id =>
      match _WEAKREFS (cls s) !! bson_id with
      | Some r =>
          match heap s !! r with
          | Some _ => (Ok r, s)
          | None => construct M doc s
          end
      | None => construct M doc s
      end
  end.
Proof.
  unfold _get. destruct (doc !! "_id") as [bson_id|]; [|reflexivity].
  rewrite bind_run. unfold gets at 1. cbv beta iota.
  destruct (_WEAKREFS (cls s) !! bson_id) as [r|]; [|reflexivity].
  rewrite bind_run. unfold weakref_call, gets.
  destruct (heap s !! r); reflexivity.
Qed.




(** A hit: the cached live instance is returned and nothing changes. *)
Lemma get_hit (doc : dict) (s : state) K I :
  cached s K I → doc !! "_id" = Some K → _get M doc s = (Ok I, s).
Proof.
  intros [Href [d Hlive]] Hid. rewrite get_run, Hid, Href, Hlive. reflexivity.
Qed.







Lemma find_docs_only sv sv' h flt :
  Mongo.docs (Mongo.contents sv' h) = Mongo.docs (Mongo.contents sv h) →
  Mongo.find sv' h flt = Mongo.find sv h flt.
Proof. intros H. unfold Mongo.find. by rewrite H. Qed.



Lemma find_one_run args kwargs (s : state) :
  find_one M args kwargs s =
  match resolve M (cls s) with
  | Some h =>
      match Mongo.find_one (server s) h
              (_get_store_vals M (_get_all_args M args kwargs)) with
      | Some doc =>
          if bool_decide (doc = ∅) then (Ok None, (get_collection M s).2)
          else match _get M doc (get_collection M s).2 with
               | (Ok a, s') => (Ok (Some a), s')
               | (Err e, s') => (Err e, s')
               end
      | None => (Ok None, (get_collection M s).2)
      end
  | None => (Err NoCollection, s)
  end.
Proof.
  unfold find_one. cbv zeta. rewrite bind_run, get_collection_run.
  destruct (resolve M (cls s)) as [h|] eqn:Hres; [|reflexivity].
  rewrite bind_run. unfold gets. cbn [snd].
  set (s1 := if _COLLECTION_INITIALIZED (cls s) then s else initialized_on M h s).
  assert (Hfind : ∀ flt, Mongo.find_one (server s1) h flt
                         = Mongo.find_one (server s) h flt).
  { intros flt. unfold Mongo.find_one. f_equal. apply find_docs_only.
    unfold s1. destruct (_COLLECTION_INITIALIZED (cls s)); [reflexivity|]. simpl.
    apply MongoFacts.create_indexes_docs. }
  rewrite Hfind. destruct (Mongo.find_one _ _ _) as [doc|]; [|reflexivity].
  case_bool_decide; [reflexivity|].
  rewrite bind_run. destruct (_get M doc s1) as [[a|e] s']; reflexivity.
Qed.



End Identity.

(** ** The theorems at work on [User] *)






(** Another way to a second instance under a live one's key, through the
    constructor: [get_or_create] with the key of [ann] and another name
    finds no document and constructs, and the next [find_one] on the key
    yields the stored document of [ann] but returns the new instance. *)
Example get_or_create_registers_second_instance :
  find_one User [] {["_id" := VOid 0]} ann_created = (Ok (Some 0), ann_created)
  ∧ (get_or_create User [] {["_id" := VOid 0; "name" := VStr "bob"]} ann_created).1
    = Ok 1
  ∧ heap ann_rebuilt !! 0 = Some ann_fields
  ∧ Mongo.find_one (server ann_rebuilt) ("MyDB", "User") {["_id" := VOid 0]}
    = Some {["name" := VStr "ann"; "age" := VInt 0; "_id" := VOid 0]}
  ∧ (find_one User [] {["_id" := VOid 0]} ann_rebuilt).1 = Ok (Some 1).
Proof. repeat split; vm_compute; reflexivity. Qed.



(** C5 on [bob.update(age=8, nickname='b')]: only [age] is declared. *)
Lemma update_writes_only_passed_fields_witness :
  heap bob_created !! 1 = Some bob_fields
  ∧ declared_updates User {["age" := VInt 8; "nickname" := VStr "b"]} ≠ ∅
  ∧ resolve User (cls bob_created) = Some ("MyDB", "User")
  ∧ getattr_id User
      (dict_update bob_fields
         (declared_updates User {["age" := VInt 8; "nickname" := VStr "b"]}))
    = Ok (VOid 1)
  ∧ (update User 1 {["age" := VInt 8; "nickname" := VStr "b"]} bob_created).1
    = Ok tt.
Proof.
  assert (Hne : declared_updates User {["age" := VInt 8; "nickname" := VStr "b"]} ≠ ∅).
  { intros H. apply (f_equal (λ m : dict, m !! "age")) in H.
    vm_compute in H. discriminate H. }
  assert (H1 : heap bob_created !! 1 = Some bob_fields)
    by (vm_compute; reflexivity).
  assert (H2 : resolve User (cls bob_created) = Some ("MyDB", "User"))
    by (vm_compute; reflexivity).
  assert (H3 : getattr_id User
                 (dict_update bob_fields
                    (declared_updates User
                       {["age" := VInt 8; "nickname" := VStr "b"]}))
               = Ok (VOid 1))
    by (vm_compute; reflexivity).
  split; [exact H1|]. split; [exact Hne|]. split; [exact H2|].
  split; [exact H3|].
  rewrite (proj1 (update_writes_only_passed_fields User 1
                    {["age" := VInt 8; "nickname" := VStr "b"]} bob_created
                    bob_fields ("MyDB", "User") (VOid 1) H1 Hne H2 H3)).
  vm_compute. reflexivity.
Defined.

(** C9 on [bob.update(name='ann')]: the name is taken, the call raises,
    and [bob] is named ann in memory. *)
Lemma update_conflict_not_rolled_back_witness :
  heap bob_created !! 1 = Some bob_fields
  ∧ (update User 1 {["name" := VStr "ann"]} bob_created).1 = Err UniqueConflict
  ∧ heap (update User 1 {["name" := VStr "ann"]} bob_created).2 !! 1
    = Some (dict_update bob_fields
              (declared_updates User {["name" := VStr "ann"]})).
Proof.
  split; [reflexivity|]. split; [vm_compute; reflexivity|].
  refine (proj1 (update_conflict_not_rolled_back User 1 {["name" := VStr "ann"]}
                   bob_created bob_fields _ eq_refl _)).
  vm_compute. reflexivity.
Defined.

(** C10 on [ann.delete()] twice. *)
Lemma delete_without_entry_raises_witness :
  heap ann_created !! 0 = Some ann_fields
  ∧ getattr_id User ann_fields = Ok (VOid 0)
  ∧ get_collection User ann_created = (Ok ("MyDB", "User"), ann_created)
  ∧ (delete User 0 ann_created).1 = Ok tt
  ∧ (delete User 0 (delete User 0 ann_created).2).1 = Err KeyError.
Proof.
  split; [reflexivity|]. split; [reflexivity|]. split; [reflexivity|].
  split; [vm_compute; reflexivity|].
  rewrite (proj2 (delete_without_entry_raises User 0 ann_created ann_fields
                    (VOid 0) ("MyDB", "User") ann_created eq_refl eq_refl eq_refl)
             (delete User 0 ann_created).2).
  - reflexivity.
  - vm_compute. reflexivity.
Defined.

(** C7 at [User] on its first use; [name] is the unique-marked field. *)
Lemma unique_indexes_created_once_witness :
  _COLLECTION_INITIALIZED (cls User_defined) = false
  ∧ get_collection User User_defined = (Ok ("MyDB", "User"), User_first_use)
  ∧ "name" ∈ Mongo.indexes (Mongo.contents (server User_first_use) ("MyDB", "User")).
Proof.
  split; [reflexivity|]. split; [reflexivity|].
  refine (proj1 (proj2 (unique_indexes_created_once User User_defined
                          ("MyDB", "User") User_first_use [] _ _))
            "name" (Annotation Unique "str") _ _).
  - reflexivity.
  - reflexivity.
  - apply list_elem_of_here.
  - right. reflexivity.
Defined.

(** C2, refuted as stated: after its first use [User] is bound to another
    database, and [get_collection] answers with another collection. *)
Lemma get_collection_not_fixed :
  (get_collection User User_defined).1 = Ok ("MyDB", "User")
  ∧ (set_database (ByName "Other") User_first_use).1 = Ok tt
  ∧ (get_collection User User_rebound).1 = Ok ("Other", "User").
Proof. repeat split. Qed.

(** C2 on a class bound to a collection handle and to no database. *)
Lemma get_collection_resolution_witness :
  (_COLLECTION (cls User_by_handle) = None ∨ _DATABASE (cls User_by_handle) = None)
  ∧ Forall (λ o, ¬ rebinds o) [FindOne [] ∅]
  ∧ (get_collection User User_by_handle).1 = Ok ("Archive", "people").
Proof.
  split; [right; reflexivity|].
  split; [repeat constructor; intros []|].
  refine (proj1 (get_collection_resolution User User_by_handle [FindOne [] ∅] _ _)).
  - right. reflexivity.
  - repeat constructor. intros [].
Defined.

(** The other way [get_collection] departs from C2: a class with a
    database and an explicitly bound collection gets the collection named
    after the class, not the bound one. *)
Example explicit_collection_overridden :
  _COLLECTION (cls User_in_people) = Some ("MyDB", "people")
  ∧ (get_collection User User_in_people).1 = Ok ("MyDB", "User").
Proof. split; reflexivity. Qed.

(** ** Arguments and serialized values *)

Section Arguments.

Context (M : model).

Lemma zip_positional (names : list string) (args : list value) i k :
  NoDup names → names !! i = Some k →
  (list_to_map (zip names args) : dict) !! k = args !! i.
Proof.
  intros Hnd. revert args i.
  induction Hnd as [|x names Hx _ IH]; intros args i Hi; [by destruct i|].
  destruct args as [|v args];
    [by rewrite zip_with_nil_r, list_to_map_nil, lookup_empty, lookup_nil|].
  cbn [zip zip_with]. rewrite list_to_map_cons. destruct i as [|i]; simpl in Hi.
  - injection Hi as ->. apply lookup_insert_eq.
  - rewrite lookup_insert_ne; [exact (IH args i Hi)|].
    intros ->. apply Hx. by eapply list_elem_of_lookup_2.
Qed.

Lemma zip_undeclared (names : list string) (args : list value) k :
  k ∉ names → (list_to_map (zip names args) : dict) !! k = None.
Proof.
  intros Hk. apply not_elem_of_list_to_map_1. intros Hin. apply Hk.
  apply list_elem_of_fmap in Hin as ([k' v] & -> & Hin).
  apply elem_of_zip_l in Hin. exact Hin.
Qed.

(** Positional values go to the declared fields in declaration order, a
    keyword overrides the positional value of its field, keywords that
    are no declared field are kept, and positional values beyond the
    declared fields are dropped. *)
Theorem get_all_args_positional_then_keywords args kwargs :
  NoDup (field_names M) →
  (∀ k v, kwargs !! k = Some v → _get_all_args M args kwargs !! k = Some v)
  ∧ (∀ i k, field_names M !! i = Some k → kwargs !! k = None →
       _get_all_args M args kwargs !! k = args !! i)
  ∧ (∀ k, k ∉ field_names M → _get_all_args M args kwargs !! k = kwargs !! k).
Proof.
  intros Hnd. unfold _get_all_args, dict_update. split; [|split].
  - intros k v Hk. by apply lookup_union_Some_l.
  - intros i k Hi Hk. rewrite lookup_union_r by exact Hk.
    by apply zip_positional.
  - intros k Hk. destruct (kwargs !! k) as [v|] eqn:Hkw.
    + by apply lookup_union_Some_l.
    + rewrite lookup_union_r by exact Hkw. by apply zip_undeclared.
Qed.

Lemma annotation_of_declared k :
  k ∈ field_names M → is_Some (annotation_of M k).
Proof.
  unfold field_names, annotation_of.
  induction (__annotations__ M) as [|[k' a] l IH]; simpl; intros Hk.
  - by apply elem_of_nil in Hk.
  - case_bool_decide as Hkk; simpl in *; [eauto|]. apply IH.
    apply elem_of_cons in Hk as [->|Hk]; [contradiction | exact Hk].
Qed.

Lemma annotation_of_undeclared k :
  k ∉ field_names M → annotation_of M k = None.
Proof.
  unfold field_names, annotation_of.
  induction (__annotations__ M) as [|[k' a] l IH]; simpl; intros Hk;
    [reflexivity|].
  apply not_elem_of_cons in Hk as [Hne Hk].
  rewrite bool_decide_false by (simpl; congruence). by apply IH.
Qed.

(** Storing and retrieving a field map gives back the value of every
    declared field, when the serializer's two directions agree; a field
    that is not declared comes back in its stored form, since only
    declared fields are deserialized; no key is added or lost. *)
Theorem retrieve_after_store (d : dict) :
  (∀ a v, deserialize M a (serialize M v) = v) →
  (∀ k, k ∈ field_names M →
     _get_retrieve_vals M (_get_store_vals M d) !! k = d !! k)
  ∧ (∀ k, k ∉ field_names M →
       _get_retrieve_vals M (_get_store_vals M d) !! k = serialize M <$> d !! k)
  ∧ dom (_get_retrieve_vals M (_get_store_vals M d)) = dom d.
Proof.
  intros Hround.
  assert (Hlookup : ∀ k, _get_retrieve_vals M (_get_store_vals M d) !! k =
            (λ v, match annotation_of M k with
                  | Some a => deserialize M a (serialize M v)
                  | None => serialize M v
                  end) <$> d !! k).
  { intros k. unfold _get_retrieve_vals, _get_store_vals.
    rewrite map_lookup_imap, lookup_fmap. by destruct (d !! k). }
  split; [|split].
  - intros k Hk. rewrite Hlookup.
    destruct (annotation_of_declared k Hk) as [a ->].
    destruct (d !! k); simpl; [by rewrite Hround | reflexivity].
  - intros k Hk. rewrite Hlookup, (annotation_of_undeclared k Hk). reflexivity.
  - apply set_eq. intros k. rewrite !elem_of_dom, Hlookup.
    by rewrite fmap_is_Some.
Qed.

(** [new] reads the declared fields only: keywords that differ on other
    names give the same call. *)
Theorem new_ignores_undeclared_keywords args kwargs kwargs' (s : state) :
  (∀ k, k ∈ field_names M → kwargs !! k = kwargs' !! k) →
  new M args kwargs s = new M args kwargs' s.
Proof.
  intros Hsame.
  assert (Hdoc : new_doc M (_get_all_args M args kwargs)
                 = new_doc M (_get_all_args M args kwargs')).
  { apply map_eq. intros k. rewrite !new_doc_lookup.
    destruct (decide (k ∈ field_names M)) as [Hk|]; [|reflexivity].
    unfold _get_all_args, dict_update. rewrite !lookup_union, (Hsame k Hk).
    reflexivity. }
  rewrite !new_run. cbv zeta. rewrite Hdoc. reflexivity.
Qed.

(** [update] with no declared field among its keywords does nothing at
    all: no store call, no assignment, and no error even where the class
    has no collection or the key is missing. *)
Theorem update_without_declared_field self kwargs (s : state) :
  (∀ k, k ∈ field_names M → kwargs !! k = None) →
  update M self kwargs s = (Ok tt, s).
Proof.
  intros Hnone. rewrite update_run. cbv zeta.
  rewrite bool_decide_true; [reflexivity|].
  apply map_eq. intros k. rewrite lookup_empty.
  destruct (declared_updates M kwargs !! k) as [v|] eqn:Hk; [|reflexivity].
  apply declared_updates_lookup in Hk as [Hk Hin]. rewrite (Hnone k Hin) in Hk.
  discriminate.
Qed.

End Arguments.

(** ** Binding calls, class statements and configuration *)

Section MoreBinding.

Context (M : model).





Lemma class_statement_plain dc dd (s : state) :
  __init_subclass__ M dc dd None None s =
  scan_keys (__annotations__ M)
    (set_cls (λ c, ClassAttrs dc dd None false ∅ (_KEY_FIELD c)) s).
Proof. reflexivity. Qed.

Lemma class_statement_run dc dd db co (s : state) :
  __init_subclass__ M dc dd db co s =
  let s0 := set_cls (λ c, ClassAttrs dc dd None false ∅ (_KEY_FIELD c)) s in
  match truthy db, dc with
  | Some _, None => (Err NoDatabase, s0)
  | _, _ =>
      let s1 := match truthy db with
                | Some n => set_cls (with_DATABASE (Some n)) s0
                | None => s0
                end in
      match truthy co with
      | Some c =>
          match _DATABASE (cls s1) with
          | Some d =>
              scan_keys (__annotations__ M)
                (set_cls (with_COLLECTION (Some (d, c))) s1)
          | None => (Err NoDatabase, s1)
          end
      | None => scan_keys (__annotations__ M) s1
      end
  end.
Proof.
  unfold __init_subclass__.
  destruct (truthy db) as [n|], dc as [c|], (truthy co) as [cn|], dd as [d|];
    reflexivity.
Qed.





(** The key field a class statement settles on, for a class that inherits
    the key field ['_id'] and marks no field of that name as key: without
    a key-marked field it stays ['_id'], one key-marked field becomes the
    key field, and more raise [MultipleKeys]. *)
Theorem class_statement_key_field dc dd (s : state) :
  _KEY_FIELD (cls s) = "_id" →
  "_id" ∉ key_fields (__annotations__ M) →
  match key_fields (__annotations__ M) with
  | [] =>
      (__init_subclass__ M dc dd None None s).1 = Ok tt
      ∧ _KEY_FIELD (cls (__init_subclass__ M dc dd None None s).2) = "_id"
  | [k] =>
      (__init_subclass__ M dc dd None None s).1 = Ok tt
      ∧ _KEY_FIELD (cls (__init_subclass__ M dc dd None None s).2) = k
  | _ => (__init_subclass__ M dc dd None None s).1 = Err MultipleKeys
  end.
Proof.
  intros Hid Hno. rewrite class_statement_plain.
  set (s0 := set_cls _ s).
  rewrite (scan_keys_spec (__annotations__ M) s0 Hid Hno).
  destruct (key_fields (__annotations__ M)) as [|k [|k2 ks]];
    [split; [reflexivity | exact Hid] | split; reflexivity | reflexivity].
Qed.

End MoreBinding.

(** ** Retrieval, deletion and references *)

#[global] Instance same_documents_preorder : PreOrder same_documents.
Proof.
  split; [intros s h; reflexivity|].
  intros s1 s2 s3 H12 H23 h. by rewrite H23, H12.
Qed.

Section MoreStoreFacts.

Lemma matches_id (id : value) (d : dict) :
  Mongo.matches {["_id" := id]} d = true ↔ dict_get d "_id" = id.
Proof.
  unfold Mongo.matches. rewrite bool_decide_eq_true, map_Forall_singleton.
  reflexivity.
Qed.

Lemma matches_empty (d : dict) : Mongo.matches ∅ d = true.
Proof. unfold Mongo.matches. apply bool_decide_eq_true, map_Forall_empty. Qed.

Lemma split_match_None flt l :
  Mongo.split_match flt l = None → Forall (λ d, Mongo.matches flt d = false) l.
Proof.
  induction l as [|x l IH]; simpl; intros H; [constructor|].
  destruct (Mongo.matches flt x) eqn:Hx; [discriminate|].
  destruct (Mongo.split_match flt l) as [[[pre d] post]|]; [discriminate|].
  constructor; [exact Hx | by apply IH].
Qed.

(** Deleting by [_id] leaves no document with that [_id], where every
    document has its own. *)
Lemma delete_one_by_id sv h (id : value) :
  NoDup ((λ d : dict, dict_get d "_id") <$> Mongo.docs (Mongo.contents sv h)) →
  Forall (λ d : dict, dict_get d "_id" ≠ id)
    (Mongo.docs (Mongo.contents (Mongo.delete_one sv h {["_id" := id]}) h)).
Proof.
  intros Hnd. unfold Mongo.delete_one.
  destruct (Mongo.split_match _ _) as [[[pre x] post]|] eqn:Hsplit.
  - apply MongoFacts.split_match_Some in Hsplit as [Hl Hx].
    apply matches_id in Hx. rewrite Hl, fmap_app, fmap_cons in Hnd.
    apply NoDup_app in Hnd as (_ & Hpre & Hpost).
    apply NoDup_cons in Hpost as [Hpost _].
    rewrite MongoFacts.contents_set_contents, decide_True by reflexivity. simpl.
    apply Forall_app. split; apply Forall_forall; intros d Hd Heq.
    + apply (Hpre (dict_get d "_id")).
      * apply list_elem_of_fmap. eauto.
      * rewrite Heq, <- Hx. apply list_elem_of_here.
    + apply Hpost. rewrite Hx, <- Heq. apply list_elem_of_fmap. eauto.
  - apply split_match_None in Hsplit. eapply Forall_impl; [exact Hsplit|].
    intros d Hd Heq. apply matches_id in Heq. congruence.
Qed.

Lemma delete_one_other sv h flt h' :
  h ≠ h' →
  Mongo.contents (Mongo.delete_one sv h flt) h' = Mongo.contents sv h'.
Proof.
  intros Hne. unfold Mongo.delete_one.
  destruct (Mongo.split_match _ _) as [[[pre x] post]|]; [|reflexivity].
  by rewrite MongoFacts.contents_set_contents, decide_False.
Qed.

Lemma filter_none {A} (P : A → Prop) `{∀ x, Decision (P x)} (l : list A) :
  (∀ x, ¬ P x) → filter P l = [].
Proof.
  intros HP. induction l as [|x l IH]; [reflexivity|].
  rewrite filter_cons, decide_False by apply HP. exact IH.
Qed.

Lemma head_filter_found {A} (P : A → Prop) `{∀ x, Decision (P x)} (l : list A) x :
  x ∈ l → P x → ∃ y, head (filter P l) = Some y ∧ y ∈ l ∧ P y.
Proof.
  intros Hx HPx. destruct (filter P l) as [|y l'] eqn:Hf.
  - assert (x ∈ filter P l) as Hin by (apply list_elem_of_filter; auto).
    rewrite Hf in Hin. by apply elem_of_nil in Hin.
  - assert (y ∈ filter P l) as Hin by (rewrite Hf; apply list_elem_of_here).
    apply list_elem_of_filter in Hin as [HPy Hy]. eauto.
Qed.

End MoreStoreFacts.

Section MoreCalls.

Context (M : model).

(** The calls that retrieve or construct never change a document of any
    collection: [query], [find], [find_one], [get_or_create] and the
    constructor write nothing to the store but the indexes of the first
    use. *)
Theorem retrieval_writes_no_document (o : op) (s : state) :
  reads o → same_documents s (run_op M o s).
Proof.
  intros Ho. destruct o; cbn [run_op]; try (exfalso; exact Ho); frames_call;
    try (intros t h; apply get_collection_docs);
    frames_parts; intros; intros h; reflexivity.
Qed.

(** [delete_all()] without arguments deletes every document of the
    class's collection and leaves the other collections their
    documents. *)
Theorem delete_all_without_arguments (s : state) (h : string * string) :
  resolve M (cls s) = Some h →
  (delete_all M [] ∅ s).1 = Ok tt
  ∧ Mongo.docs (Mongo.contents (server (delete_all M [] ∅ s).2) h) = []
  ∧ (∀ h', h' ≠ h →
       Mongo.docs (Mongo.contents (server (delete_all M [] ∅ s).2) h')
       = Mongo.docs (Mongo.contents (server s) h')).
Proof.
  intros Hres. rewrite delete_all_run.
  pose proof (get_collection_docs M s) as Hdocs.
  rewrite get_collection_run, Hres in *. cbn [fst snd] in *.
  rewrite get_all_args_keywords. unfold _get_store_vals. rewrite fmap_empty.
  split; [reflexivity|]. split.
  - simpl. rewrite MongoFacts.delete_many_docs. apply filter_none.
    intros d. by rewrite matches_empty.
  - intros h' Hne. simpl. unfold Mongo.delete_many.
    rewrite MongoFacts.contents_set_contents, decide_False by done. apply Hdocs.
Qed.






End MoreCalls.

Section CreateFindDelete.

Context (M : model).

(** What a successful [new] leaves behind. *)
Lemma new_outcome args kwargs (s : state) a (s' : state) :
  new M args kwargs s = (Ok a, s') →
  ∃ h id (stored : dict),
    resolve M (cls s) = Some h
    ∧ resolve M (cls s') = Some h
    ∧ _COLLECTION_INITIALIZED (cls s') = true
    ∧ _KEY_FIELD (cls s') = _KEY_FIELD (cls s)
    ∧ cached s' id a
    ∧ (∃ d : dict, heap s' !! a = Some d ∧ d !! "_id" = Some id)
    ∧ stored !! "_id" = Some id
    ∧ Mongo.docs (Mongo.contents (server s') h)
      = Mongo.docs (Mongo.contents (server s) h) ++ [stored].
Proof.
  intros Hnew. rewrite new_run in Hnew. cbv zeta in Hnew.
  pose proof (get_collection_docs M s) as Hdocs.
  rewrite get_collection_run in Hnew, Hdocs.
  destruct (resolve M (cls s)) as [h|] eqn:Hres; [|discriminate Hnew].
  set (s1 := if _COLLECTION_INITIALIZED (cls s) then s else initialized_on M h s) in *.
  assert (Hs1 : resolve M (cls s1) = Some h
                ∧ _COLLECTION_INITIALIZED (cls s1) = true
                ∧ _KEY_FIELD (cls s1) = _KEY_FIELD (cls s)).
  { unfold s1. destruct (_COLLECTION_INITIALIZED (cls s)) eqn:Hf; by repeat split. }
  destruct Hs1 as (Hres1 & Hflag1 & Hkey1).
  set (doc := new_doc M (_get_all_args M args kwargs)) in *.
  destruct (Mongo.insert_one (server s1) h (_get_store_vals M doc)).1
    as [id|e] eqn:Hw; [|destruct e; discriminate Hnew].
  rewrite init_after_insert in Hnew.
  2:{ intros k Hk. unfold doc. rewrite new_doc_lookup, decide_True by exact Hk.
      eauto. }
  injection Hnew as <- <-.
  destruct (MongoFacts.insert_one_contents _ _ _ _ Hw) as [Hid Hcontents].
  set (stored := Mongo.insert_doc (_get_store_vals M doc) (Mongo.next_oid (server s1)))
    in *.
  exists h, id, stored. cbn [cls heap server set_server next_addr].
  change (resolve M (with_WEAKREFS _ (cls s1))) with (resolve M (cls s1)).
  repeat split; try done.
  - simpl. apply lookup_insert_eq.
  - simpl. rewrite lookup_insert_eq. eauto.
  - eexists. split; [apply lookup_insert_eq|].
    rewrite lookup_insert_ne, lookup_insert_eq by done. reflexivity.
  - unfold stored, Mongo.insert_doc in *.
    destruct (_get_store_vals M doc !! "_id") as [v|] eqn:Hv.
    + rewrite Hid. unfold dict_get. by rewrite Hv.
    + rewrite Hid. unfold dict_get. by rewrite !lookup_insert_eq.
  - rewrite Hcontents. simpl. f_equal. apply Hdocs.
Qed.

(** After a successful [new], looking the instance up by its [_id]. *)
Lemma find_one_by_id_after_new args kwargs (s : state) a (s' : state) :
  new M args kwargs s = (Ok a, s') →
  (∀ h (d : dict), resolve M (cls s) = Some h →
     d ∈ Mongo.docs (Mongo.contents (server s) h) → is_Some (d !! "_id")) →
  ∃ id (d : dict),
    cached s' id a
    ∧ heap s' !! a = Some d ∧ d !! "_id" = Some id
    ∧ _KEY_FIELD (cls s') = _KEY_FIELD (cls s)
    ∧ (serialize M id = id →
       find_one M [] {["_id" := id]} s' = (Ok (Some a), s')).
Proof.
  intros Hnew Hkeyed.
  destruct (new_outcome args kwargs s a s' Hnew)
    as (h & id & stored & Hres & Hres' & Hflag & Hkey & Hc & (d & Hd & Hdid)
        & Hstored & Hdocs).
  exists id, d. split; [exact Hc|]. split; [exact Hd|]. split; [exact Hdid|].
  split; [exact Hkey|].
  intros Hser. rewrite find_one_run, Hres', get_all_args_keywords.
  unfold _get_store_vals. rewrite map_fmap_singleton, Hser.
  assert (Hs' : (get_collection M s').2 = s').
  { rewrite get_collection_run, Hres', Hflag. reflexivity. }
  rewrite Hs'. unfold Mongo.find_one, Mongo.find. rewrite Hdocs.
  destruct (head_filter_found (λ d : dict, Mongo.matches {["_id" := id]} d = true)
              (Mongo.docs (Mongo.contents (server s) h) ++ [stored]) stored)
    as (doc & -> & Hin & Hmatch).
  { apply elem_of_app. right. apply list_elem_of_here. }
  { apply matches_id. unfold dict_get. by rewrite Hstored. }
  apply matches_id in Hmatch.
  assert (Hdoc : doc !! "_id" = Some id).
  { assert (is_Some (doc !! "_id")) as [v Hv].
    { apply elem_of_app in Hin as [Hin|Hin]; [by eapply Hkeyed|].
      apply list_elem_of_singleton in Hin as ->. eauto. }
    unfold dict_get in Hmatch. rewrite Hv in Hmatch. simpl in Hmatch. congruence. }
  rewrite bool_decide_false by (intros ->; by rewrite lookup_empty in Hdoc).
  rewrite (get_hit M doc s' id a Hc Hdoc). reflexivity.
Qed.

(** Insert then look up: after a successful [new], [find_one] on the
    [_id] of the new instance returns that very instance and changes
    nothing, provided the serializer leaves that [_id] as it is. *)
Theorem new_then_find_one_by_id args kwargs (s : state) a (s' : state) :
  new M args kwargs s = (Ok a, s') →
  (∀ h (d : dict), resolve M (cls s) = Some h →
     d ∈ Mongo.docs (Mongo.contents (server s) h) → is_Some (d !! "_id")) →
  ∃ id (d : dict),
    heap s' !! a = Some d ∧ d !! "_id" = Some id
    ∧ (serialize M id = id →
       find_one M [] {["_id" := id]} s' = (Ok (Some a), s')).
Proof.
  intros Hnew Hkeyed.
  destruct (find_one_by_id_after_new args kwargs s a s' Hnew Hkeyed)
    as (id & d & _ & Hd & Hid & _ & Hfind).
  exists id, d. auto.
Qed.

(** References between models, for a class whose key field is ['_id']:
    [_db_store_] of a newly created instance is its [_id], and
    [_db_retrieve_] of that value gives the instance back. *)
Theorem reference_round_trip args kwargs (s : state) a (s' : state) :
  new M args kwargs s = (Ok a, s') →
  _KEY_FIELD (cls s) = "_id" →
  (∀ h (d : dict), resolve M (cls s) = Some h →
     d ∈ Mongo.docs (Mongo.contents (server s) h) → is_Some (d !! "_id")) →
  ∃ id,
    _db_store_ M a s' = (Ok id, s')
    ∧ (serialize M id = id → _db_retrieve_ M id s' = (Ok (Some a), s')).
Proof.
  intros Hnew Hkey Hkeyed.
  destruct (find_one_by_id_after_new args kwargs s a s' Hnew Hkeyed)
    as (id & d & _ & Hd & Hid & Hkey' & Hfind).
  rewrite Hkey in Hkey'. exists id. split.
  - unfold _db_store_. rewrite bind_run. unfold instance_dict. rewrite Hd.
    rewrite bind_run. unfold gets, lift, getattr. by rewrite Hkey', Hid.
  - intros Hser. unfold _db_retrieve_. rewrite bind_run. unfold gets.
    rewrite Hkey'. by apply Hfind.
Qed.

(** A successful [delete] evicts the cache entry of the instance's key
    and no other, leaves the instance itself as it was, and, in a
    collection where every document has its own [_id], leaves no document
    with that [_id]; other collections keep their documents. *)
Theorem delete_removes_document
    self (s : state) (d : dict) (id : value) (h : string * string) (s' : state) :
  heap s !! self = Some d →
  getattr_id M d = Ok id →
  resolve M (cls s) = Some h →
  delete M self s = (Ok tt, s') →
  _WEAKREFS (cls s') = base.delete id (_WEAKREFS (cls s))
  ∧ heap s' = heap s
  ∧ (ids_unique (Mongo.contents (server s) h) →
     Forall (λ doc : dict, dict_get doc "_id" ≠ id)
       (Mongo.docs (Mongo.contents (server s') h)))
  ∧ (∀ h', h' ≠ h →
       Mongo.docs (Mongo.contents (server s') h')
       = Mongo.docs (Mongo.contents (server s) h')).
Proof.
  intros Hself Hid Hres Hdel. rewrite delete_run, Hself in Hdel.
  pose proof (get_collection_docs M s) as Hdocs.
  pose proof (get_collection_heap M s) as Hheap.
  assert (Hrefs : _WEAKREFS (cls (get_collection M s).2) = _WEAKREFS (cls s)).
  { apply (frames_get_collection M (unchanged (λ s, _WEAKREFS (cls s))));
      intros; reflexivity. }
  rewrite get_collection_run, Hres in Hdel, Hdocs, Hheap, Hrefs.
  cbn [fst snd] in *. rewrite Hid in Hdel. cbv zeta in Hdel.
  set (s1 := if _COLLECTION_INITIALIZED (cls s) then s else initialized_on M h s) in *.
  destruct (_WEAKREFS (cls s1) !! id); [|discriminate Hdel].
  injection Hdel as <-. cbn [cls heap server set_cls set_server with_WEAKREFS
                               _WEAKREFS].
  split; [by rewrite Hrefs|]. split; [exact Hheap|]. split.
  - intros Huniq. apply delete_one_by_id. unfold ids_unique in Huniq.
    by rewrite Hdocs.
  - intros h' Hne. rewrite delete_one_other by done. apply Hdocs.
Qed.

End CreateFindDelete.

Section StoreInvariant.

(** The store keeps the [_id]s of a collection distinct. *)
Lemma insert_one_ids_unique sv h (d : dict) :
  ids_unique (Mongo.contents sv h) →
  ids_unique (Mongo.contents (Mongo.insert_one sv h d).2 h).
Proof.
  intros Huniq. rewrite MongoFacts.insert_one_run. cbv zeta.
  destruct (Mongo.violates _ _ _) eqn:Hv; [exact Huniq|]. simpl.
  unfold ids_unique, Mongo.contents at 1. simpl. rewrite lookup_insert_eq. simpl.
  rewrite fmap_app. apply NoDup_app. split; [exact Huniq|]. split.
  - intros x Hx Hin. apply list_elem_of_singleton in Hin as ->.
    apply list_elem_of_fmap in Hx as (e & He & Hin).
    apply not_true_iff_false in Hv. apply Hv.
    unfold Mongo.violates. apply existsb_exists. exists e.
    split; [by apply list_elem_of_In|].
    unfold Mongo.clashes, Mongo.unique_keys. simpl.
    rewrite bool_decide_true by exact He. reflexivity.
  - apply NoDup_singleton.
Qed.

End StoreInvariant.

Section IndexesStay.

Context (M : model).

(** From the class statement on, through every call that does not rebind
    the class, the collection the class resolves to carries a unique
    index on every key-marked or unique-marked field whenever the class
    counts as initialized. *)
Theorem unique_indexes_stay dc dd db co (s0 : state) (ops : list op) :
  Forall (λ o, ¬ rebinds o) ops →
  let s := run M ops (__init_subclass__ M dc dd db co s0).2 in
  _COLLECTION_INITIALIZED (cls s) = true →
  ∀ h, resolve M (cls s) = Some h →
  ∀ k a, (k, a) ∈ __annotations__ M → origin a = Key ∨ origin a = Unique →
  k ∈ Mongo.indexes (Mongo.contents (server s) h).
Proof.
  intros Hops s Hflag h Hres k a Hin Ho.
  assert (Hready : indexes_ready M s).
  { unfold s. clear s Hflag Hres.
    assert (Hstart : indexes_ready M (__init_subclass__ M dc dd db co s0).2).
    { intros Hflag.
      rewrite (proj2 (class_definition_lazy M dc dd db co s0)) in Hflag.
      discriminate Hflag. }
    revert Hstart. generalize (__init_subclass__ M dc dd db co s0).2.
    induction Hops as [|o ops Ho' _ IH]; intros t Ht; simpl; [exact Ht|].
    apply IH. by apply indexes_ready_op. }
  apply (Hready Hflag h Hres). apply indexed_fields_spec. eauto.
Qed.

End IndexesStay.

(** ** The further properties at work *)

Lemma User_fields_distinct : NoDup (field_names User).
Proof. apply (bool_decide_unpack _). vm_compute. exact I. Qed.

Lemma get_all_args_positional_then_keywords_witness :
  NoDup (field_names User)
  ∧ _get_all_args User [VStr "ann"; VInt 5; VInt 9] {["age" := VInt 6]} !! "age"
    = Some (VInt 6).
Proof.
  split; [exact User_fields_distinct|].
  apply (proj1 (get_all_args_positional_then_keywords User
                  [VStr "ann"; VInt 5; VInt 9] {["age" := VInt 6]}
                  User_fields_distinct)).
  reflexivity.
Defined.

Lemma retrieve_after_store_witness :
  (∀ a v, deserialize User a (serialize User v) = v)
  ∧ _get_retrieve_vals User (_get_store_vals User {["name" := VStr "ann"]}) !! "name"
    = Some (VStr "ann").
Proof.
  split; [reflexivity|].
  rewrite (proj1 (retrieve_after_store User {["name" := VStr "ann"]}
                    (λ a v, eq_refl)) "name").
  - reflexivity.
  - apply list_elem_of_here.
Defined.

Lemma new_ignores_undeclared_keywords_witness :
  (∀ k, k ∈ field_names User →
     ({["nickname" := VStr "a"]} : dict) !! k = (∅ : dict) !! k)
  ∧ new User [VStr "ann"] {["nickname" := VStr "a"]} User_defined
    = new User [VStr "ann"] ∅ User_defined.
Proof.
  assert (H : ∀ k, k ∈ field_names User →
            ({["nickname" := VStr "a"]} : dict) !! k = (∅ : dict) !! k).
  { intros k Hk. rewrite lookup_empty. apply lookup_singleton_ne.
    intros <-. revert Hk. change ("nickname" ∉ field_names User).
    apply (bool_decide_unpack _). vm_compute. exact I. }
  split; [exact H|].
  exact (new_ignores_undeclared_keywords User [VStr "ann"]
           {["nickname" := VStr "a"]} ∅ User_defined H).
Defined.

Lemma update_without_declared_field_witness :
  (∀ k, k ∈ field_names User → ({["nickname" := VStr "a"]} : dict) !! k = None)
  ∧ update User 0 {["nickname" := VStr "a"]} boot = (Ok tt, boot).
Proof.
  assert (H : ∀ k, k ∈ field_names User →
            ({["nickname" := VStr "a"]} : dict) !! k = None).
  { intros k Hk. apply lookup_singleton_ne. intros <-. revert Hk. change ("nickname" ∉ field_names User).
    apply (bool_decide_unpack _). vm_compute. exact I. }
  split; [exact H|].
  exact (update_without_declared_field User 0 {["nickname" := VStr "a"]} boot H).
Defined.



Lemma class_statement_key_field_witness :
  _KEY_FIELD (cls boot) = "_id"
  ∧ ("_id" ∉ key_fields (__annotations__ Tag))
  ∧ _KEY_FIELD (cls (__init_subclass__ Tag (Some MongoClient) (Some "MyDB")
                       None None boot).2) = "label".
Proof.
  assert (H : "_id" ∉ key_fields (__annotations__ Tag)).
  { intros Hin. apply list_elem_of_singleton in Hin. discriminate Hin. }
  split; [reflexivity|]. split; [exact H|].
  exact (proj2 (class_statement_key_field Tag (Some MongoClient) (Some "MyDB")
                  boot eq_refl H)).
Defined.

Lemma retrieval_writes_no_document_witness :
  reads (GetOrCreate [] {["_id" := VOid 0; "name" := VStr "bob"]})
  ∧ same_documents ann_created
      (run_op User (GetOrCreate [] {["_id" := VOid 0; "name" := VStr "bob"]})
         ann_created).
Proof.
  split; [exact I|].
  exact (retrieval_writes_no_document User
           (GetOrCreate [] {["_id" := VOid 0; "name" := VStr "bob"]})
           ann_created I).
Defined.

Lemma bob_created_resolves : resolve User (cls bob_created) = Some ("MyDB", "User").
Proof. vm_compute. reflexivity. Qed.


Lemma delete_all_without_arguments_witness :
  resolve User (cls bob_created) = Some ("MyDB", "User")
  ∧ Mongo.docs (Mongo.contents (server (delete_all User [] ∅ bob_created).2)
                  ("MyDB", "User")) = [].
Proof.
  split; [exact bob_created_resolves|].
  exact (proj1 (proj2 (delete_all_without_arguments User bob_created
                         ("MyDB", "User") bob_created_resolves))).
Defined.



Lemma ann_new : new User [VStr "ann"] ∅ User_defined = (Ok 0, ann_created).
Proof. vm_compute. reflexivity. Qed.

Lemma User_defined_keyed h (d : dict) :
  resolve User (cls User_defined) = Some h →
  d ∈ Mongo.docs (Mongo.contents (server User_defined) h) → is_Some (d !! "_id").
Proof. intros _ Hd. vm_compute in Hd. by apply elem_of_nil in Hd. Qed.

Lemma new_then_find_one_by_id_witness :
  new User [VStr "ann"] ∅ User_defined = (Ok 0, ann_created)
  ∧ (∀ h (d : dict), resolve User (cls User_defined) = Some h →
       d ∈ Mongo.docs (Mongo.contents (server User_defined) h) → is_Some (d !! "_id"))
  ∧ ∃ id (d : dict),
      heap ann_created !! 0 = Some d ∧ d !! "_id" = Some id
      ∧ (serialize User id = id →
         find_one User [] {["_id" := id]} ann_created = (Ok (Some 0), ann_created)).
Proof.
  split; [exact ann_new|]. split; [exact User_defined_keyed|].
  exact (new_then_find_one_by_id User [VStr "ann"] ∅ User_defined 0 ann_created
           ann_new User_defined_keyed).
Defined.

Lemma reference_round_trip_witness :
  new User [VStr "ann"] ∅ User_defined = (Ok 0, ann_created)
  ∧ _KEY_FIELD (cls User_defined) = "_id"
  ∧ (∀ h (d : dict), resolve User (cls User_defined) = Some h →
       d ∈ Mongo.docs (Mongo.contents (server User_defined) h) → is_Some (d !! "_id"))
  ∧ ∃ id,
      _db_store_ User 0 ann_created = (Ok id, ann_created)
      ∧ (serialize User id = id →
         _db_retrieve_ User id ann_created = (Ok (Some 0), ann_created)).
Proof.
  split; [exact ann_new|]. split; [reflexivity|]. split; [exact User_defined_keyed|].
  exact (reference_round_trip User [VStr "ann"] ∅ User_defined 0 ann_created
           ann_new eq_refl User_defined_keyed).
Defined.

Lemma bob_delete :
  delete User 1 bob_created = (Ok tt, (delete User 1 bob_created).2).
Proof. vm_compute. reflexivity. Qed.

Lemma bob_alive : heap bob_created !! 1 = Some bob_fields.
Proof. vm_compute. reflexivity. Qed.

Lemma delete_removes_document_witness :
  heap bob_created !! 1 = Some bob_fields
  ∧ getattr_id User bob_fields = Ok (VOid 1)
  ∧ resolve User (cls bob_created) = Some ("MyDB", "User")
  ∧ delete User 1 bob_created = (Ok tt, (delete User 1 bob_created).2)
  ∧ heap (delete User 1 bob_created).2 = heap bob_created.
Proof.
  split; [exact bob_alive|]. split; [reflexivity|].
  split; [exact bob_created_resolves|]. split; [exact bob_delete|].
  exact (proj1 (proj2 (delete_removes_document User 1 bob_created bob_fields
                         (VOid 1) ("MyDB", "User") (delete User 1 bob_created).2
                         bob_alive eq_refl bob_created_resolves bob_delete))).
Defined.

Lemma unique_indexes_stay_witness :
  Forall (λ o, ¬ rebinds o) [New [VStr "ann"] ∅; New [VStr "bob"; VInt 7] ∅]
  ∧ "name" ∈ Mongo.indexes (Mongo.contents (server bob_created) ("MyDB", "User")).
Proof.
  assert (H : Forall (λ o, ¬ rebinds o)
                [New [VStr "ann"] ∅; New [VStr "bob"; VInt 7] ∅])
    by (repeat constructor; intros []).
  split; [exact H|].
  refine (unique_indexes_stay User (Some MongoClient) (Some "MyDB") None None boot
            [New [VStr "ann"] ∅; New [VStr "bob"; VInt 7] ∅] H _
            ("MyDB", "User") _ "name" (Annotation Unique "str") _ _).
  - vm_compute. reflexivity.
  - vm_compute. reflexivity.
  - apply list_elem_of_here.
  - right. reflexivity.
Defined.

Section Decorating.

Context (M : model).

Lemma scan_keys_collection annos c (s : state) :
  scan_keys annos (set_cls (with_COLLECTION c) s) =
  ((scan_keys annos s).1, set_cls (with_COLLECTION c) (scan_keys annos s).2).
Proof.
  revert s. induction annos as [|[anno val] rest IH]; intros s; [reflexivity|].
  cbn [scan_keys]. rewrite !bind_run. destruct (is_key val).
  - rewrite !bind_run. unfold gets. cbv beta iota.
    change (_KEY_FIELD (cls (set_cls (with_COLLECTION c) s)))
      with (_KEY_FIELD (cls s)).
    case_bool_decide; [reflexivity|]. unfold modify. cbv beta iota.
    apply (IH (set_cls (with_KEY_FIELD anno) s)).
  - unfold mret, py_ret. cbv beta iota. apply IH.
Qed.

Lemma scan_keys_keeps_database annos (s : state) :
  _DATABASE (cls (scan_keys annos s).2) = _DATABASE (cls s).
Proof.
  apply (frames_scan_keys (unchanged (λ s, _DATABASE (cls s)))).
  intros; reflexivity.
Qed.

(** [@collection(n)] on a model class and the class keyword
    [collection=n] agree: the decorated class statement succeeds exactly
    when the one with the keyword does, and the class then has the same
    attributes.  The decorator runs after the scan for the key field and
    the keyword before it, so that when both fail the errors may differ. *)
Theorem collection_decorator_matches_keyword
    (n : string) (m : module_attrs) (s : state) :
  n ≠ "" →
  let kw := class_statement M m None (Some n) s in
  let dec := (class_statement M m None None ≫= λ _,
                decorators.collection (ByName n) true) s in
  (kw.1 = Ok tt ↔ dec.1 = Ok tt) ∧ (kw.1 = Ok tt → dec.2 = kw.2).
Proof.
  intros Hn kw dec. unfold kw, dec, class_statement.
  assert (Htruthy : truthy (Some n) = Some n) by (by destruct n).
  rewrite bind_run, class_statement_plain, class_statement_run, Htruthy.
  cbn [truthy]. cbv zeta.
  set (s0 := set_cls (λ c, ClassAttrs (_DEFAULT_CLIENT m) (_DEFAULT_DATABASE m)
                             None false ∅ (_KEY_FIELD c)) s).
  pose proof (scan_keys_keeps_database (__annotations__ M) s0) as Hdb.
  change (_DATABASE (cls s0)) with (_DEFAULT_DATABASE m) in *.
  destruct (_DEFAULT_DATABASE m) as [d|] eqn:Hd.
  - rewrite scan_keys_collection.
    destruct (scan_keys (__annotations__ M) s0) as [[[]|e] s1]; cbn [fst snd] in *.
    + unfold decorators.collection, set_collection. rewrite bind_run.
      unfold get_database, gets. cbv beta iota. rewrite Hdb. simpl.
      split; [tauto | intros _; reflexivity].
    + split; [tauto | intros H; discriminate H].
  - destruct (scan_keys (__annotations__ M) s0) as [[[]|e] s1]; cbn [fst snd] in *.
    + unfold decorators.collection, set_collection. rewrite bind_run.
      unfold get_database, gets. cbv beta iota. rewrite Hdb. simpl.
      split; [split; intros H; discriminate H | intros H; discriminate H].
    + split; [split; intros H; discriminate H | intros H; discriminate H].
Qed.

End Decorating.

Lemma collection_decorator_matches_keyword_witness :
  "people" ≠ ""
  ∧ ((class_statement User (ModuleAttrs (Some MongoClient) (Some "MyDB")) None None
        ≫= λ _, decorators.collection (ByName "people") true) boot).2
    = (class_statement User (ModuleAttrs (Some MongoClient) (Some "MyDB")) None
         (Some "people") boot).2.
Proof.
  assert (H : "people" ≠ "") by discriminate.
  split; [exact H|].
  apply (proj2 (collection_decorator_matches_keyword User "people"
                  (ModuleAttrs (Some MongoClient) (Some "MyDB")) boot H)).
  vm_compute. reflexivity.
Defined.
